(** * Transformer: filtering, hydration and indexing of NSQ events

    A shallow embedding of [app.js].  JavaScript values are an inductive
    type whose objects are finite maps from property names to values;
    the module-level [config] is an explicit record; code that talks to
    the outside (the Brainspark JSON-RPC service, Elasticsearch, the
    console, the NSQ reader) is a program tree whose nodes are those
    calls, run against an arbitrary world.

    Definitions come first, in the order of the source; the facts proved
    about them follow. *)

From Stdlib Require Import ZArith Ascii PrimFloat Uint63.
From stdpp Require Import gmap strings list fin_maps pretty.

Local Open Scope Z_scope.
Local Open Scope string_scope.
Local Open Scope list_scope.

(** ** JavaScript values and the primitive operations the source uses *)

Module JS.

#[warnings="-register-all"]
Inductive value : Type :=
| VUndefined
| VNull
| VBool (b : bool)
| VNumber (n : float)
| VString (s : string)
| VArray (l : list value)
| VObject (o : gmap string value).

(** [typeof v] *)
Definition typeof (v : value) : string :=
  match v with
  | VUndefined => "undefined"
  | VNull | VArray _ | VObject _ => "object"
  | VBool _ => "boolean"
  | VNumber _ => "number"
  | VString _ => "string"
  end.

(** [v === null] *)
Definition is_null (v : value) : bool :=
  match v with
  | VNull => true
  | _ => false
  end.

(** ToBoolean, as applied by [if (v)], [!v] and [&&]. *)
Definition truthy (v : value) : bool :=
  match v with
  | VUndefined | VNull => false
  | VBool b => b
  | VNumber n => negb (PrimFloat.is_zero n || PrimFloat.is_nan n)
  | VString s => negb (String.eqb s "")
  | VArray _ | VObject _ => true
  end.

(** [undefined] and [null]: the values a property read raises a
    TypeError on. *)
Definition nullish (v : value) : bool :=
  match v with
  | VUndefined | VNull => true
  | _ => false
  end.

(** Property read [v.k] on a value that is neither [undefined] nor
    [null], for the data property names of this program ([attempt_id],
    [result], [data], ...).  None of them is defined on the prototypes
    of strings, numbers, booleans or arrays, so reading them from such
    a value gives [undefined].  On [undefined] and [null] JavaScript
    raises a TypeError: a function that reads from a value it has not
    tested raises it there itself (see [hydrateAndIndex] and
    [indexToElastic]), and the result given here for the two is never
    used. *)
Definition prop (v : value) (k : string) : value :=
  match v with
  | VObject o => default VUndefined (o !! k)
  | _ => VUndefined
  end.

(** Assignment [v.k = x] on the message, an object.  The module is not
    in strict mode: on a primitive the assignment would be dropped. *)
Definition set_prop (v : value) (k : string) (x : value) : value :=
  match v with
  | VObject o => VObject (<[k := x]> o)
  | _ => v
  end.

(** [Object.keys(v).length] for a value whose [typeof] is ["object"] and
    which is not [null]: the own enumerable keys of an object, the
    indices of an array. *)
Definition keys_length (v : value) : Z :=
  match v with
  | VObject o => Z.of_nat (size o)
  | VArray l => Z.of_nat (length l)
  | _ => 0
  end.

(** [v === s] against a string literal. *)
Definition strict_eq_string (v : value) (s : string) : bool :=
  match v with
  | VString s' => String.eqb s' s
  | _ => false
  end.

(** [s.split(sep)[0]] for a one-character separator: the text before
    the first occurrence of [sep], the whole text when there is none. *)
Fixpoint split_head (sep : ascii) (s : string) : string :=
  match s with
  | EmptyString => EmptyString
  | String c s' =>
      if Ascii.eqb c sep then EmptyString else String c (split_head sep s')
  end.

(** An integer as a JavaScript number (exact for the integers a
    number holds exactly, status codes among them). *)
Definition number_of_Z (z : Z) : value :=
  VNumber (if (z <? 0)%Z
           then PrimFloat.opp (PrimFloat.of_uint63 (Uint63.of_Z (- z)))
           else PrimFloat.of_uint63 (Uint63.of_Z z)).

Inductive exn : Type :=
| SyntaxError (message : string)
| TypeError (message : string).

End JS.
Export JS.

(** ** The message schema and its validator *)

Module jsonschema.

Inductive jtype : Type := TObject | TString | TNumber.

(** One entry of [properties]: [{type, format, required}]. *)
Record property : Type := Property {
  p_type : jtype;
  p_format : option string;
  p_required : bool;
}.

(** [{id, type, properties}] *)
Record schema : Type := Schema {
  s_id : string;
  s_type : jtype;
  s_properties : list (string * property);
}.

Section Validate.

(** The test of the [date-time] format on a string, as the schema
    package implements it. *)
Variable date_time : string -> bool.

(** A keyed record: not null, not a primitive, not a sequence. *)
Definition is_object (v : value) : bool :=
  match v with VObject _ => true | _ => false end.

(** A JSON number: a number that is neither NaN nor infinite. *)
Definition is_number (v : value) : bool :=
  match v with VNumber n => PrimFloat.is_finite n | _ => false end.

Definition is_string (v : value) : bool :=
  match v with VString _ => true | _ => false end.

Definition testType (t : jtype) (v : value) : bool :=
  match t with
  | TObject => is_object v
  | TString => is_string v
  | TNumber => is_number v
  end.

Definition testFormat (f : option string) (v : value) : bool :=
  match f, v with
  | Some "date-time", VString s => date_time s
  | _, _ => true
  end.

(** A property of the instance against its entry: a missing property
    fails when the entry is required; a present one must have the
    entry's type and format. *)
Definition validateProperty (instance : value) (p : property) : bool :=
  match instance with
  | VUndefined => negb (p_required p)
  | _ => testType (p_type p) instance && testFormat (p_format p) instance
  end.

(** Modelled from the spec: [validate(instance, schema).valid] of the
    [jsonschema] package, an external dependency whose code is not
    among the sources.  The instance conforms when it has the schema's
    type and every entry of [properties] holds of the corresponding
    property of the instance: required fields are present, and fields
    have the stated type and format. *)
Definition validate (instance : value) (s : schema) : bool :=
  testType (s_type s) instance
  && forallb (fun '(k, p) => validateProperty (prop instance k) p)
             (s_properties s).

End Validate.

End jsonschema.

(** ** Configuration *)

Record endpoint : Type := Endpoint { host : string; port : Z }.

Record server_config : Type := {
  server_nsq : endpoint;
  server_nsqadmin : endpoint;
  server_elastic : endpoint;
  server_brainspark : endpoint;
}.

(** The module-level [config], nested keys flattened:
    [msg_keycount] is [config.msg.keycount], and so on. *)
Record config : Type := {
  server : server_config;
  http_timeout : Z;
  nsq_topic : string;
  nsq_channel : string;
  msg_keycount : Z;
  msg_schema : jsonschema.schema;
  brainspark_method : gmap string string;
  elastic_type : string;
  elastic_indexprefix : string;
}.

Definition messageSchema : jsonschema.schema :=
  let str := jsonschema.Property jsonschema.TString None true in
  let num := jsonschema.Property jsonschema.TNumber None true in
  jsonschema.Schema "/Message" jsonschema.TObject
    [ ("id", str);
      ("attempt_id", str);
      ("progress", num);
      ("score", num);
      ("timestamp",
        jsonschema.Property jsonschema.TString (Some "date-time") true);
      ("type", str);
      ("user_id", str) ].

(** The defaults of [loadConfiguration]. *)
Definition defaultConfig : config := {|
  server := {|
    server_nsq := Endpoint "localhost" 4150;
    server_nsqadmin := Endpoint "localhost" 4151;
    server_elastic := Endpoint "localhost" 9200;
    server_brainspark := Endpoint "localhost" 8080;
  |};
  http_timeout := 10000;
  nsq_topic := "events";
  nsq_channel := "transformer";
  msg_keycount := 7;
  msg_schema := messageSchema;
  brainspark_method :=
    <["attempt" := "Participation.GetAttempt"]>
    (<["course" := "Content.GetCourse"]>
    (<["trainee" := "Account.GetUser"]>
    (<["user" := "Account.GetUser"]> ∅)));
  elastic_type := "event";
  elastic_indexprefix := "events-";
|}.

(** [loadConfiguration]: [loaded] is what [YAML.load('config.yml')] gave,
    [None] when it raised or returned [null]. *)
Definition loadConfiguration (loaded : option config) : config :=
  match loaded with
  | Some c => c
  | None => defaultConfig
  end.

(** ** Calls to the outside *)

(** The JSON-RPC document [data] posted by [getDetails]. *)
Record jsonrpc : Type := {
  rpc_jsonrpc : string;
  rpc_method : value;
  rpc_id : string;
  rpc_params_id : value;
}.

(** [requestOptions] *)
Record requestOptions : Type := {
  ro_url : string;
  ro_method : string;
  ro_headers_Accept : string;
  ro_timeout : Z;
  ro_json : jsonrpc;
}.

(** What [request] hands to its callback: [(error, response, body)].
    [error] is [null] unless the transport failed or timed out; the
    response, when there is one, carries the status code of the reply. *)
Record response : Type := { statusCode : Z }.

Record callbackArgs : Type := {
  cb_error : value;
  cb_response : option response;
  cb_body : value;
}.

(** The argument of [elasticClient.create]. *)
Record createParams : Type := {
  es_index : string;
  es_type : string;
  es_id : string;
  es_body : value;
}.

(** The state in which a promise settles. *)
Inductive settled : Type :=
| Fulfilled (v : value)
| Rejected (reason : value).

(** A program is a tree of the calls it makes to the outside, each node
    continuing with what the call gives back:
    - [Call type id k] marks the entry of [getDetails(type, id)];
    - [Uuid k] is [uuid.v4()];
    - [Request o k] is [request(o, callback)], [k] the callback;
    - [Create p k] is [elasticClient.create(p, callback)];
    - [Log v k] is [console.log(v)];
    - [Tick k] is a promise reaction: [k] runs as a job of its own, after
      the code that is running has returned;
    - [Throw e] is an exception nobody catches. *)
Inductive prog (A : Type) : Type :=
| Ret (a : A)
| Throw (e : exn)
| Call (type : string) (id : value) (k : prog A)
| Uuid (k : string -> prog A)
| Request (o : requestOptions) (k : callbackArgs -> prog A)
| Create (p : createParams) (k : value -> prog A)
| Log (v : value) (k : prog A)
| Tick (k : prog A).

Arguments Ret {A} a.
Arguments Throw {A} e.
Arguments Call {A} type id k.
Arguments Uuid {A} k.
Arguments Request {A} o k.
Arguments Create {A} p k.
Arguments Log {A} v k.
Arguments Tick {A} k.

Fixpoint bind {A B : Type} (p : prog A) (f : A -> prog B) : prog B :=
  match p with
  | Ret a => f a
  | Throw e => Throw e
  | Call t i k => Call t i (bind k f)
  | Uuid k => Uuid (fun u => bind (k u) f)
  | Request o k => Request o (fun r => bind (k r) f)
  | Create c k => Create c (fun r => bind (k r) f)
  | Log v k => Log v (bind k f)
  | Tick k => Tick (bind k f)
  end.

Declare Scope prog_scope.
Delimit Scope prog_scope with prog.
Notation "x <- p ;; q" := (bind p (fun x => q))
  (at level 100, p at next level, right associativity) : prog_scope.
Local Open Scope prog_scope.

(** [promise.then(onFulfilled, onRejected)], for callbacks that return
    normally: the reaction runs as a job once the promise has settled. *)
Definition then_ {A : Type} (promise : prog settled)
    (onFulfilled onRejected : value -> prog A) : prog A :=
  s <- promise ;;
  Tick (match s with
        | Fulfilled result => onFulfilled result
        | Rejected err => onRejected err
        end).

(** ** The functions of [app.js] *)

(** [indexToElastic(msg)].  [msg.timestamp] is a TypeError on [null]
    and [undefined], and [msg.timestamp.split] is one unless the
    timestamp is a string. *)
Definition indexToElastic (cfg : config) (msg : value) : prog unit :=
  match prop msg "timestamp" with
  | VString timestamp =>
      Uuid (fun id =>
        Create {| es_index := elastic_indexprefix cfg +:+ split_head "T" timestamp;
                  es_type := elastic_type cfg;
                  es_id := id;
                  es_body := msg |}
          (fun error => if truthy error then Log error (Ret tt) else Ret tt))
  | _ => Throw (TypeError "msg.timestamp.split is not a function")
  end.

Section Validation.

Variable date_time : string -> bool.

(** [isIndexableMessage(msg)], reading the module-level [config]. *)
Definition isIndexableMessage (cfg : config) (msg : value) : bool :=
  (* Object? *)
  if negb (String.eqb (typeof msg) "object") || is_null msg then false
  (* Extra keys? *)
  else if (keys_length msg >? msg_keycount cfg)%Z then false
  (* Schema? *)
  else if negb (jsonschema.validate date_time msg (msg_schema cfg)) then false
  (* Filter out events with type `FOO` *)
  else if strict_eq_string (prop msg "type") "FOO" then false
  else true.

End Validation.

(** [config.brainspark.method[type]] for the types the chain asks for
    ([attempt], [course], [trainee], [user]): none is the name of a
    property an object inherits, so what is read is what the
    configuration maps, or [undefined]. *)
Definition method_of (cfg : config) (type : string) : value :=
  match brainspark_method cfg !! type with
  | Some m => VString m
  | None => VUndefined
  end.

(** The callback [getDetails] hands to [request]: whether it calls
    [reject] or [resolve], and with what. *)
Definition callback (a : callbackArgs) : settled :=
  let '(Build_callbackArgs error response body) := a in
  if truthy error then Rejected error
  else if match response with
          | Some r => (statusCode r <? 200)%Z || (statusCode r >? 299)%Z
          | None => false
          end
  then Rejected (number_of_Z (from_option statusCode 0 response))
  else if negb (truthy body)
          || negb (truthy (prop body "result"))
          || negb (truthy (prop (prop body "result") "data"))
  then Fulfilled VNull
  else Fulfilled (prop (prop body "result") "data").

(** [getDetails(type, id)]: the promise it returns, as the program that
    settles it. *)
Definition getDetails (cfg : config) (type : string) (id : value) : prog settled :=
  Call type id
    (if negb (truthy id) then Ret (Fulfilled VNull)
     else
       let url := "http://" +:+ host (server_brainspark (server cfg)) +:+ ":"
                  +:+ pretty (port (server_brainspark (server cfg))) +:+ "/" in
       Uuid (fun u =>
         let data := {| rpc_jsonrpc := "2.0";
                        rpc_method := method_of cfg type;
                        rpc_id := u;
                        rpc_params_id := id |} in
         let requestOptions := {| ro_url := url;
                                  ro_method := "POST";
                                  ro_headers_Accept := "application/json";
                                  ro_timeout := http_timeout cfg;
                                  ro_json := data |} in
         Request requestOptions (fun a => Ret (callback a)))).

(** [hydrateAndIndex(msg)].  [fullMessage] is the one object the chain
    mutates: each reaction gives back the object as it has left it.
    The first read, [fullMessage.attempt_id], is made while the
    arguments of the first [getDetails] are evaluated: on [null] and
    [undefined] it raises a TypeError before anything is looked up.
    Past it [fullMessage] is neither, and no later read can raise. *)
Definition hydrateAndIndex (cfg : config) (msg : value) : prog unit :=
  let fullMessage := msg in
  if nullish fullMessage
  then Throw (TypeError ("Cannot read property 'attempt_id' of "
                         +:+ (if is_null fullMessage then "null" else "undefined")))
  else
  (* Resolve 'attempt' *)
  fullMessage <-
    then_ (getDetails cfg "attempt" (prop fullMessage "attempt_id"))
      (fun result =>
         if truthy result then
           let fullMessage := set_prop fullMessage "attempt" result in
           let fullMessage :=
             set_prop fullMessage "course_id"
               (prop (prop fullMessage "attempt") "course_id") in
           let fullMessage :=
             set_prop fullMessage "trainee_id"
               (prop (prop fullMessage "attempt") "trainee_id") in
           Ret fullMessage
         else Ret fullMessage)
      (fun err => Log err (Ret fullMessage)) ;;
  Tick (
  (* Resolve 'course' *)
  fullMessage <-
    then_ (getDetails cfg "course" (prop fullMessage "course_id"))
      (fun result =>
         if truthy result then Ret (set_prop fullMessage "course" result)
         else Ret fullMessage)
      (fun err => Log err (Ret fullMessage)) ;;
  Tick (
  (* Resolve 'trainee' *)
  fullMessage <-
    then_ (getDetails cfg "trainee" (prop fullMessage "trainee_id"))
      (fun result =>
         if truthy result then Ret (set_prop fullMessage "trainee" result)
         else Ret fullMessage)
      (fun err => Log err (Ret fullMessage)) ;;
  Tick (
  (* Resolve 'user' *)
  fullMessage <-
    then_ (getDetails cfg "user" (prop fullMessage "user_id"))
      (fun result =>
         if truthy result then Ret (set_prop fullMessage "user" result)
         else Ret fullMessage)
      (fun err => Log err (Ret fullMessage)) ;;
  Tick (
  (* Let send the event to Elastic *)
  indexToElastic cfg fullMessage)))).

Section Transform.

Variable date_time : string -> bool.

(** [transformMessage(msg)] *)
Definition transformMessage (cfg : config) (msg : value) : prog unit :=
  if isIndexableMessage date_time cfg msg then hydrateAndIndex cfg msg
  else Ret tt.

End Transform.

(** ** Validation, step by step *)

(** [isIndexableMessage] and [transformMessage] once more, this time
    with what a function of the module can reach passed along: the
    module-level [config] and the object the argument [msg] refers to,
    as they stand.  Every step is a program that gives back the memory
    as it leaves it: it may assign, print, call out, wait or raise.
    The steps of the source itself are reads ([typeof], [Object.keys],
    [config.msg.keycount], [msg.type]).  The [validate] of jsonschema
    is not part of the source: it is a parameter, given the schema and,
    by reference, the message, and free to do any of these; what it
    gives back is the [valid] of its result. *)
Module Stepwise.

Record memory : Type := { module_config : config; referent : value }.

Definition action (A : Type) : Type := memory -> prog (A * memory).

Section Steps.

Variable validate : jsonschema.schema -> action bool.

Definition isIndexableMessage : action bool := fun m =>
  (* Object? *)
  if negb (String.eqb (typeof (referent m)) "object") || is_null (referent m)
  then Ret (false, m)
  (* Extra keys? *)
  else if (keys_length (referent m) >? msg_keycount (module_config m))%Z
  then Ret (false, m)
  else
    (* Schema? *)
    r <- validate (msg_schema (module_config m)) m ;;
    let '(valid, m) := r in
    if negb valid then Ret (false, m)
    (* Filter out events with type `FOO` *)
    else if strict_eq_string (prop (referent m) "type") "FOO" then Ret (false, m)
    else Ret (true, m).

Definition transformMessage (m : memory) : prog unit :=
  r <- isIndexableMessage m ;;
  let '(indexable, m) := r in
  if indexable then hydrateAndIndex (module_config m) (referent m) else Ret tt.

End Steps.

End Stepwise.

(** ** Running a program *)

(** What a run leaves behind, in order. *)
Inductive event : Type :=
| EvCall (type : string) (id : value)
| EvRequest (o : requestOptions)
| EvCreate (p : createParams)
| EvLog (v : value)
| EvFinish (id : string).

(** The outside: the identifiers [uuid.v4()] draws, what the lookup
    service answers to the n-th request and what Elasticsearch answers to
    the n-th [create] (its callback's [error], [undefined] on success). *)
Record world : Type := {
  uuid_v4 : nat -> string;
  answer : nat -> requestOptions -> callbackArgs;
  stored : nat -> createParams -> value;
}.

Definition after_uuid (w : world) : world :=
  {| uuid_v4 := fun n => uuid_v4 w (S n); answer := answer w; stored := stored w |}.

Definition after_request (w : world) : world :=
  {| uuid_v4 := uuid_v4 w; answer := fun n => answer w (S n); stored := stored w |}.

Definition after_create (w : world) : world :=
  {| uuid_v4 := uuid_v4 w; answer := answer w; stored := fun n => stored w (S n) |}.

(** [run w p]: the events of [p] from start to end in the world [w], how
    it ended, and the world left. *)
Fixpoint run {A : Type} (w : world) (p : prog A) : list event * (exn + A) * world :=
  match p with
  | Ret a => ([], inr a, w)
  | Throw e => ([], inl e, w)
  | Call t i k =>
      let '(tr, r, w') := run w k in (EvCall t i :: tr, r, w')
  | Uuid k => run (after_uuid w) (k (uuid_v4 w 0%nat))
  | Request o k =>
      let '(tr, r, w') := run (after_request w) (k (answer w 0%nat o)) in
      (EvRequest o :: tr, r, w')
  | Create c k =>
      let '(tr, r, w') := run (after_create w) (k (stored w 0%nat c)) in
      (EvCreate c :: tr, r, w')
  | Log v k =>
      let '(tr, r, w') := run w k in (EvLog v :: tr, r, w')
  | Tick k => run w k
  end.

Definition trace {A : Type} (w : world) (p : prog A) : list event := (run w p).1.1.

Definition outcome {A : Type} (w : world) (p : prog A) : exn + A := (run w p).1.2.

(** The lookups entered, the requests sent, the documents written and
    the messages acknowledged. *)
Definition lookups (tr : list event) : list (string * value) :=
  omap (fun e => match e with EvCall t i => Some (t, i) | _ => None end) tr.

Definition requests (tr : list event) : list requestOptions :=
  omap (fun e => match e with EvRequest o => Some o | _ => None end) tr.

Definition writes (tr : list event) : list createParams :=
  omap (fun e => match e with EvCreate c => Some c | _ => None end) tr.

Definition acks (tr : list event) : list string :=
  omap (fun e => match e with EvFinish id => Some id | _ => None end) tr.

(** The lookups of a trace in order, each with the requests sent from
    its entry up to the next lookup. *)
Fixpoint stages_from (tr : list event)
  : list requestOptions * list (string * value * list requestOptions) :=
  match tr with
  | [] => ([], [])
  | e :: tr' =>
      let '(pre, groups) := stages_from tr' in
      match e with
      | EvCall t i => ([], (t, i, pre) :: groups)
      | EvRequest o => (o :: pre, groups)
      | _ => (pre, groups)
      end
  end.

Definition by_stage (tr : list event) : list (string * value * list requestOptions) :=
  (stages_from tr).2.

(** ** The reader *)

(** A message of the queue: its identifier and [msg.body.toString()]. *)
Record message : Type := { m_id : string; m_body : string }.

(** Where a program stands when the code that is running has to return:
    ended, with a reaction job queued, or waiting for a callback. *)
Inductive paused (A : Type) : Type :=
| Finished (r : exn + A)
| Deferred (k : prog A)
| AwaitingReply (o : requestOptions) (k : callbackArgs -> prog A)
| AwaitingStore (c : createParams) (k : value -> prog A).

Arguments Finished {A} r.
Arguments Deferred {A} k.
Arguments AwaitingReply {A} o k.
Arguments AwaitingStore {A} c k.

(** [advance jobs w p]: what [p] does before it has to wait.  A request
    or a write is sent off and its callback is left pending.  With
    [jobs = false] this is the synchronous code alone, up to the first
    reaction job; with [jobs = true] the queued jobs run as well. *)
Fixpoint advance {A : Type} (jobs : bool) (w : world) (p : prog A)
  : list event * world * paused A :=
  match p with
  | Ret a => ([], w, Finished (inr a))
  | Throw e => ([], w, Finished (inl e))
  | Call t i k =>
      let '(tr, w', q) := advance jobs w k in (EvCall t i :: tr, w', q)
  | Uuid k => advance jobs (after_uuid w) (k (uuid_v4 w 0%nat))
  | Request o k => ([EvRequest o], w, AwaitingReply o k)
  | Create c k => ([EvCreate c], w, AwaitingStore c k)
  | Log v k =>
      let '(tr, w', q) := advance jobs w k in (EvLog v :: tr, w', q)
  | Tick k => if jobs then advance jobs w k else ([], w, Deferred k)
  end.

(** The callback of a pending call is run with what the world answers. *)
Definition hear {A : Type} (w : world) (q : paused A)
  : list event * world * paused A :=
  match q with
  | AwaitingReply o k => advance true (after_request w) (k (answer w 0%nat o))
  | AwaitingStore c k => advance true (after_create w) (k (stored w 0%nat c))
  | _ => ([], w, q)
  end.

(** A paused program run to its end, with nothing else in between. *)
Definition resume {A : Type} (w : world) (q : paused A)
  : list event * (exn + A) * world :=
  match q with
  | Finished r => ([], r, w)
  | Deferred k => run w k
  | AwaitingReply o k => run (after_request w) (k (answer w 0%nat o))
  | AwaitingStore c k => run (after_create w) (k (stored w 0%nat c))
  end.

Section Reader.

Variable date_time : string -> bool.

(** [JSON.parse]: the value decoded, or the SyntaxError raised. *)
Variable JSON_parse : string -> exn + value.

(** The listener of ['message']:
    [transformMessage(JSON.parse(msg.body.toString())); msg.finish();].
    [inl e]: the listener raised [e].  [inr q]: it returned; the jobs
    queued by the chain it started have then run, and [q] is where the
    chain stands. *)
Definition on_message (cfg : config) (w : world) (msg : message)
  : list event * world * (exn + paused unit) :=
  match JSON_parse (m_body msg) with
  | inl e => ([], w, inl e)
  | inr decoded =>
      let '(tr1, w1, q1) :=
        advance false w (transformMessage date_time cfg decoded) in
      match q1 with
      | Finished (inl e) => (tr1, w1, inl e)
      | Deferred k =>
          let '(tr2, w2, q2) := advance true w1 k in
          (tr1 ++ EvFinish (m_id msg) :: tr2, w2, inr q2)
      | _ => (tr1 ++ [EvFinish (m_id msg)], w1, inr q1)
      end
  end.

(** The process: what has happened so far, the world, the chains in
    flight, and the exception that brought it down, if any. *)
Record reader : Type := {
  seen : list event;
  env : world;
  inflight : list (paused unit);
  down : option exn;
}.

(** What the event loop is woken by: a message from the queue, or the
    callback of the call the n-th chain is waiting for. *)
Inductive happening : Type :=
| Delivered (msg : message)
| Heard (n : nat).

(** One turn of the event loop.  An exception that leaves the listener
    is caught by nobody and ends the process. *)
Definition step (cfg : config) (r : reader) (h : happening) : reader :=
  match down r with
  | Some _ => r
  | None =>
      match h with
      | Delivered msg =>
          let '(tr, w, res) := on_message cfg (env r) msg in
          match res with
          | inl e =>
              {| seen := seen r ++ tr; env := w;
                 inflight := inflight r; down := Some e |}
          | inr q =>
              {| seen := seen r ++ tr; env := w;
                 inflight := inflight r ++ [q]; down := None |}
          end
      | Heard n =>
          match inflight r !! n with
          | Some q =>
              let '(tr, w, q') := hear (env r) q in
              {| seen := seen r ++ tr; env := w;
                 inflight := <[n := q']> (inflight r); down := None |}
          | None => r
          end
      end
  end.

(** [startReader()], then the turns [hs].  The listener of ['error']
    prints what the transport reports; the transport is not part of
    this model. *)
Definition startReader (cfg : config) (w : world) (hs : list happening) : reader :=
  fold_left (step cfg) hs
    {| seen := []; env := w; inflight := []; down := None |}.

End Reader.

(** The identifiers of the messages delivered. *)
Definition delivered (hs : list happening) : list string :=
  omap (fun h => match h with
                 | Delivered msg => Some (m_id msg)
                 | Heard _ => None
                 end) hs.

(** ** The words of the specification *)

(** A keyed record [o] has a string, a number, a date-time at [k]. *)
Definition string_field (o : gmap string value) (k : string) : Prop :=
  exists s, o !! k = Some (VString s).

Definition number_field (o : gmap string value) (k : string) : Prop :=
  exists n, o !! k = Some (VNumber n) /\ PrimFloat.is_finite n = true.

Definition date_time_field (date_time : string -> bool)
    (o : gmap string value) (k : string) : Prop :=
  exists s, o !! k = Some (VString s) /\ date_time s = true.

(** A message to be processed: a keyed record of at most 7 top-level
    keys with the required fields of the stated types, whose [type] is
    not the sentinel ["FOO"]. *)
Definition to_be_processed (date_time : string -> bool) (msg : value) : Prop :=
  exists o, msg = VObject o
    /\ (size o <= 7)%nat
    /\ string_field o "id" /\ string_field o "attempt_id"
    /\ string_field o "user_id" /\ string_field o "type"
    /\ number_field o "progress" /\ number_field o "score"
    /\ date_time_field date_time o "timestamp"
    /\ o !! "type" <> Some (VString "FOO").

(** The three ways a reply is read: the transport failed, the status
    code is outside 200-299, the body lacks a result payload. *)
Definition transport_error (a : callbackArgs) : Prop :=
  truthy (cb_error a) = true.

Definition status_outside_2xx (a : callbackArgs) : Prop :=
  exists r, cb_response a = Some r /\ (statusCode r < 200 \/ 299 < statusCode r)%Z.

Definition lacks_payload (body : value) : Prop :=
  truthy body = false
  \/ truthy (prop body "result") = false
  \/ truthy (prop (prop body "result") "data") = false.

(** ** The pipeline, stage by stage *)

(** The request [getDetails(type, id)] posts when it has drawn [u]. *)
Definition request_for (cfg : config) (type : string) (id : value) (u : string)
  : requestOptions :=
  {| ro_url := "http://" +:+ host (server_brainspark (server cfg)) +:+ ":"
               +:+ pretty (port (server_brainspark (server cfg))) +:+ "/";
     ro_method := "POST";
     ro_headers_Accept := "application/json";
     ro_timeout := http_timeout cfg;
     ro_json := {| rpc_jsonrpc := "2.0";
                   rpc_method := method_of cfg type;
                   rpc_id := u;
                   rpc_params_id := id |} |}.

(** What a call of [getDetails] sends, how it settles and the world it
    leaves. *)
Definition sent (cfg : config) (type : string) (id : value) (w : world) : list event :=
  if truthy id then [EvRequest (request_for cfg type id (uuid_v4 w 0%nat))] else [].

Definition settles (cfg : config) (type : string) (id : value) (w : world) : settled :=
  if truthy id
  then callback (answer w 0%nat (request_for cfg type id (uuid_v4 w 0%nat)))
  else Fulfilled VNull.

Definition world_after (id : value) (w : world) : world :=
  if truthy id then after_request (after_uuid w) else w.

(** What a stage leaves of [fullMessage] when its lookup has settled on
    [s], [upd] being the assignments made for a record; and what it
    prints. *)
Definition merged (m : value) (upd : value -> value) (s : settled) : value :=
  match s with
  | Fulfilled result => if truthy result then upd result else m
  | Rejected _ => m
  end.

Definition logged (s : settled) : list event :=
  match s with
  | Fulfilled _ => []
  | Rejected err => [EvLog err]
  end.

(** The assignments of the first stage. *)
Definition with_attempt (m result : value) : value :=
  let m := set_prop m "attempt" result in
  let m := set_prop m "course_id" (prop (prop m "attempt") "course_id") in
  set_prop m "trainee_id" (prop (prop m "attempt") "trainee_id").

(** One stage: the lookup and its two reactions. *)
Definition stage (cfg : config) (type : string) (id : value)
    (m : value) (upd : value -> value) : prog value :=
  then_ (getDetails cfg type id)
    (fun result => if truthy result then Ret (upd result) else Ret m)
    (fun err => Log err (Ret m)).

(** The events of one stage. *)
Definition stage_events (cfg : config) (type : string) (id : value)
    (w : world) (s : settled) : list event :=
  EvCall type id :: sent cfg type id w ++ logged s.

(** The message and the world after each of the four stages. *)
Definition m_attempt (cfg : config) (msg : value) (w : world) : value :=
  merged msg (with_attempt msg) (settles cfg "attempt" (prop msg "attempt_id") w).

Definition w_attempt (msg : value) (w : world) : world :=
  world_after (prop msg "attempt_id") w.

Definition m_course (cfg : config) (msg : value) (w : world) : value :=
  let m := m_attempt cfg msg w in
  merged m (set_prop m "course")
    (settles cfg "course" (prop m "course_id") (w_attempt msg w)).

Definition w_course (cfg : config) (msg : value) (w : world) : world :=
  world_after (prop (m_attempt cfg msg w) "course_id") (w_attempt msg w).

Definition m_trainee (cfg : config) (msg : value) (w : world) : value :=
  let m := m_course cfg msg w in
  merged m (set_prop m "trainee")
    (settles cfg "trainee" (prop m "trainee_id") (w_course cfg msg w)).

Definition w_trainee (cfg : config) (msg : value) (w : world) : world :=
  world_after (prop (m_course cfg msg w) "trainee_id") (w_course cfg msg w).

Definition m_user (cfg : config) (msg : value) (w : world) : value :=
  let m := m_trainee cfg msg w in
  merged m (set_prop m "user")
    (settles cfg "user" (prop m "user_id") (w_trainee cfg msg w)).

Definition w_user (cfg : config) (msg : value) (w : world) : world :=
  world_after (prop (m_trainee cfg msg w) "user_id") (w_trainee cfg msg w).

(** The document [indexToElastic] hands to [elasticClient.create]. *)
Definition document (cfg : config) (msg : value) (timestamp id : string) : createParams :=
  {| es_index := elastic_indexprefix cfg +:+ split_head "T" timestamp;
     es_type := elastic_type cfg;
     es_id := id;
     es_body := msg |}.

(** The seven fields [messageSchema] requires. *)
Definition required_keys : gset string :=
  list_to_set (jsonschema.s_properties messageSchema).*1.

(** ** Sample inputs *)

Definition is_digit (c : ascii) : bool :=
  (48 <=? nat_of_ascii c)%nat && (nat_of_ascii c <=? 57)%nat.

Definition is_char (c : ascii) : ascii -> bool := Ascii.eqb c.

(** The text left when the first characters of [l] pass the tests of
    [pattern], one each. *)
Fixpoint match_chars (pattern : list (ascii -> bool)) (l : list ascii)
  : option (list ascii) :=
  match pattern with
  | [] => Some l
  | test :: pattern' =>
      match l with
      | c :: l' => if test c then match_chars pattern' l' else None
      | [] => None
      end
  end.

Fixpoint drop_digits (l : list ascii) : list ascii :=
  match l with
  | c :: l' => if is_digit c then drop_digits l' else l
  | [] => []
  end.

Definition is_zone (l : list ascii) : bool :=
  match l with
  | [c] => is_char "Z" c
  | _ =>
      match match_chars [fun c => is_char "+" c || is_char "-" c;
                         is_digit; is_digit; is_char ":"; is_digit; is_digit] l with
      | Some [] => true
      | _ => false
      end
  end.

(** A test of the date-time format for the examples below:
    [YYYY-MM-DDThh:mm:ss], an optional fraction of a second, then [Z] or
    an offset [+hh:mm]. *)
Definition sample_date_time (s : string) : bool :=
  match match_chars [is_digit; is_digit; is_digit; is_digit; is_char "-";
                     is_digit; is_digit; is_char "-"; is_digit; is_digit;
                     is_char "T"; is_digit; is_digit; is_char ":";
                     is_digit; is_digit; is_char ":"; is_digit; is_digit]
          (String.list_ascii_of_string s) with
  | Some ("."%char :: d :: rest) => is_digit d && is_zone (drop_digits rest)
  | Some rest => is_zone rest
  | None => false
  end.

(** The event of the source's own validation test. *)
#[warnings="-inexact-float"]
Definition sample_event : gmap string value :=
  <["id" := VString "5c92de28-14f0-449e-821b-e61e871179c2"]>
  (<["attempt_id" := VString "e70a6ecf-f308-4306-831d-bb41c851061d"]>
  (<["progress" := VNumber 0.63414633%float]>
  (<["score" := VNumber 0.96158886%float]>
  (<["timestamp" := VString "2018-01-16T14:09:51.655185082-07:00"]>
  (<["type" := VString "PROGRESS"]>
  (<["user_id" := VString "471de972-520c-4f44-bd6d-34cc98dd5e6e"]> ∅)))))).

(** Its JSON text. *)
Definition quoted (s : string) : string :=
  String (ascii_of_nat 34) s +:+ String (ascii_of_nat 34) "".

Definition sample_payload : string :=
  "{" +:+ quoted "id" +:+ ":" +:+ quoted "5c92de28-14f0-449e-821b-e61e871179c2"
  +:+ "," +:+ quoted "attempt_id" +:+ ":"
  +:+ quoted "e70a6ecf-f308-4306-831d-bb41c851061d"
  +:+ "," +:+ quoted "progress" +:+ ":0.63414633"
  +:+ "," +:+ quoted "score" +:+ ":0.96158886"
  +:+ "," +:+ quoted "timestamp" +:+ ":"
  +:+ quoted "2018-01-16T14:09:51.655185082-07:00"
  +:+ "," +:+ quoted "type" +:+ ":" +:+ quoted "PROGRESS"
  +:+ "," +:+ quoted "user_id" +:+ ":"
  +:+ quoted "471de972-520c-4f44-bd6d-34cc98dd5e6e" +:+ "}".

(** [JSON.parse] on the three payloads of the examples: the text of
    [sample_event], the text of a sequence, and the truncated text [{],
    a SyntaxError.  No other text is parsed below. *)
Definition sample_JSON_parse (s : string) : exn + value :=
  if String.eqb s sample_payload then inr (VObject sample_event)
  else if String.eqb s "[1,2]"
  then inr (VArray [number_of_Z 1; number_of_Z 2])
  else inl (SyntaxError "Unexpected end of JSON input").

(** Replies of the lookup service: a record, an error status, no reply. *)
Definition found (data : value) : callbackArgs :=
  {| cb_error := VNull;
     cb_response := Some {| statusCode := 200 |};
     cb_body := VObject {[ "result" := VObject {[ "data" := data ]} ]} |}.

Definition refused (status : Z) : callbackArgs :=
  {| cb_error := VNull;
     cb_response := Some {| statusCode := status |};
     cb_body := VUndefined |}.

Definition timed_out : callbackArgs :=
  {| cb_error := VObject {[ "code" := VString "ETIMEDOUT" ]};
     cb_response := None;
     cb_body := VUndefined |}.

Definition sample_attempt : value :=
  VObject (<["course_id" := VString "c-101"]> {[ "trainee_id" := VString "t-202" ]}).

Definition sample_user : value :=
  VObject {[ "account_id" := VString "a-303" ]}.

(** A world in which the first request finds the attempt, the second
    is answered 500 and the others find a user; every write succeeds. *)
Definition sample_world : world :=
  {| uuid_v4 := fun n => "uuid-" +:+ pretty n;
     answer := fun n _ =>
       match n with
       | O => found sample_attempt
       | 1%nat => refused 500
       | _ => found sample_user
       end;
     stored := fun _ _ => VUndefined |}.

(** A world in which every request finds a record. *)
Definition generous_world : world :=
  {| uuid_v4 := fun n => "uuid-" +:+ pretty n;
     answer := fun n _ =>
       match n with
       | O => found sample_attempt
       | _ => found sample_user
       end;
     stored := fun _ _ => VUndefined |}.

(** The keys of the document written for a message. *)
Definition written_keys (tr : list event) : list (gset string) :=
  (fun c => match es_body c with
            | VObject o => dom o
            | _ => ∅
            end) <$> writes tr.

(** A world in which no request gets a reply. *)
Definition silent_world : world :=
  {| uuid_v4 := fun n => "uuid-" +:+ pretty n;
     answer := fun _ _ => timed_out;
     stored := fun _ _ => VUndefined |}.

(** A [validate] as jsonschema documents it: it gives its verdict and
    touches nothing. *)
Definition reading_validate (date_time : string -> bool)
  : jsonschema.schema -> Stepwise.action bool :=
  fun schema m =>
    Ret (jsonschema.validate date_time (Stepwise.referent m) schema, m).

(** A [validate] that would print and rewrite the type of the message
    it is given. *)
Definition meddling_validate : jsonschema.schema -> Stepwise.action bool :=
  fun schema m =>
    Log (VString "validated")
      (Ret (true,
            {| Stepwise.module_config := Stepwise.module_config m;
               Stepwise.referent :=
                 set_prop (Stepwise.referent m) "type" (VString "FOO") |})).

(** ** Further readings of a trace and of the world *)

(** What a trace prints. *)
Definition logs (tr : list event) : list value :=
  omap (fun e => match e with EvLog v => Some v | _ => None end) tr.

(** A trace without its acknowledgments. *)
Definition unacked (tr : list event) : list event :=
  omap (fun e => match e with EvFinish _ => None | _ => Some e end) tr.

(** The identifiers drawn from [uuid.v4()] that a trace shows: the
    correlation id of each request, the document id of each write. *)
Definition drawn_ids (tr : list event) : list string :=
  omap (fun e => match e with
                 | EvRequest o => Some (rpc_id (ro_json o))
                 | EvCreate c => Some (es_id c)
                 | _ => None
                 end) tr.

(** The six properties the chain may assign. *)
Definition enrichment_keys : gset string :=
  list_to_set ["attempt"; "course_id"; "trainee_id"; "course"; "trainee"; "user"].

(** [m'] is the object [m] with, at most, properties of [K] assigned. *)
Definition extends (K : gset string) (m m' : value) : Prop :=
  exists o o', m = VObject o /\ m' = VObject o'
    /\ dom o ⊆ dom o' /\ dom o' ⊆ dom o ∪ K
    /\ forall k, k ∉ K -> o' !! k = o !! k.

(** The shape of a request of the chain under [cfg]. *)
Definition chain_request (cfg : config) (o : requestOptions) : Prop :=
  ro_url o = "http://" +:+ host (server_brainspark (server cfg)) +:+ ":"
             +:+ pretty (port (server_brainspark (server cfg))) +:+ "/"
  /\ ro_method o = "POST"
  /\ ro_headers_Accept o = "application/json"
  /\ ro_timeout o = http_timeout cfg
  /\ rpc_jsonrpc (ro_json o) = "2.0"
  /\ truthy (rpc_params_id (ro_json o)) = true
  /\ exists type, type ∈ ["attempt"; "course"; "trainee"; "user"]
       /\ rpc_method (ro_json o) = method_of cfg type.

(** Worlds by what the lookup service and the store do in them. *)
Definition always_found (w : world) : Prop :=
  forall n o, exists r, callback (answer w n o) = Fulfilled r.

Definition always_refused (w : world) : Prop :=
  forall n o, exists err, callback (answer w n o) = Rejected err.

Definition store_accepts (w : world) : Prop :=
  forall n c, truthy (stored w n c) = false.

(** [every path of the program makes at most n calls that wait for a
    callback]. *)
Inductive waits_le {A : Type} : nat -> prog A -> Prop :=
| waits_Ret n a : waits_le n (Ret a)
| waits_Throw n e : waits_le n (Throw e)
| waits_Call n t i k : waits_le n k -> waits_le n (Call t i k)
| waits_Uuid n k : (forall u, waits_le n (k u)) -> waits_le n (Uuid k)
| waits_Request n o k : (forall a, waits_le n (k a)) -> waits_le (S n) (Request o k)
| waits_Create n c k : (forall e, waits_le n (k e)) -> waits_le (S n) (Create c k)
| waits_Log n v k : waits_le n k -> waits_le n (Log v k)
| waits_Tick n k : waits_le n k -> waits_le n (Tick k).

(** A paused program that has at most [n] callbacks still to hear. *)
Definition pending_le {A : Type} (n : nat) (q : paused A) : Prop :=
  match q with
  | Finished _ => True
  | Deferred k => waits_le n k
  | AwaitingReply _ k => exists n', n = S n' /\ forall a, waits_le n' (k a)
  | AwaitingStore _ k => exists n', n = S n' /\ forall e, waits_le n' (k e)
  end.

(** [n] callbacks heard in a row. *)
Fixpoint hears {A : Type} (n : nat) (w : world) (q : paused A)
  : list event * world * paused A :=
  match n with
  | O => ([], w, q)
  | S n' =>
      let '(tr, w', q') := hear w q in
      let '(tr', w'', q'') := hears n' w' q' in
      (tr ++ tr', w'', q'')
  end.

(** A world in which nothing is found: every reply is an empty 200. *)
Definition empty_world : world :=
  {| uuid_v4 := fun n => "uuid-" +:+ pretty n;
     answer := fun _ _ =>
       {| cb_error := VNull;
          cb_response := Some {| statusCode := 200 |};
          cb_body := VObject ∅ |};
     stored := fun _ _ => VUndefined |}.

(** * Facts *)

(** ** What validation accepts *)

Section ValidationFacts.

Variable date_time : string -> bool.

Lemma validate_string_field o k :
  jsonschema.validateProperty date_time (prop (VObject o) k)
    (jsonschema.Property jsonschema.TString None true) = true
  <-> string_field o k.
Proof.
  unfold string_field; simpl. destruct (o !! k) as [v|]; simpl.
  - destruct v; simpl; split; try discriminate; eauto;
      intros [s Hs]; discriminate.
  - split; [discriminate | intros [s Hs]; discriminate].
Qed.

Lemma validate_number_field o k :
  jsonschema.validateProperty date_time (prop (VObject o) k)
    (jsonschema.Property jsonschema.TNumber None true) = true
  <-> number_field o k.
Proof.
  unfold number_field; simpl. destruct (o !! k) as [v|]; simpl.
  - destruct v; simpl; split; try discriminate;
      try (intros (n' & Hn & _); discriminate).
    + rewrite andb_true_r. eauto.
    + intros (n' & Hn & Hf). inversion Hn; subst. by rewrite Hf.
  - split; [discriminate | intros (n & Hn & _); discriminate].
Qed.

Lemma validate_date_time_field o k :
  jsonschema.validateProperty date_time (prop (VObject o) k)
    (jsonschema.Property jsonschema.TString (Some "date-time") true) = true
  <-> date_time_field date_time o k.
Proof.
  unfold date_time_field; simpl. destruct (o !! k) as [v|]; simpl.
  - destruct v; simpl; split; try discriminate;
      try (intros (s' & Hs & _); discriminate).
    + eauto.
    + intros (s' & Hs & Hd). inversion Hs; subst. done.
  - split; [discriminate | intros (s & Hs & _); discriminate].
Qed.

(** Conformance to [messageSchema], spelled out. *)
Lemma validate_messageSchema msg :
  jsonschema.validate date_time msg messageSchema = true <->
  exists o, msg = VObject o
    /\ string_field o "id" /\ string_field o "attempt_id"
    /\ number_field o "progress" /\ number_field o "score"
    /\ date_time_field date_time o "timestamp"
    /\ string_field o "type" /\ string_field o "user_id".
Proof.
  unfold jsonschema.validate, messageSchema.
  cbn [jsonschema.s_type jsonschema.s_properties jsonschema.testType forallb].
  rewrite !andb_true_iff.
  destruct msg as [| |b|n|s|l|o];
    try (split; [intros [? _]; discriminate | intros (o' & ? & _); discriminate]).
  rewrite !validate_string_field, validate_number_field,
    validate_number_field, validate_date_time_field.
  split.
  - intros (_ & ? & ? & ? & ? & ? & ? & ? & _). exists o. tauto.
  - intros (o' & Ho & ?). inversion Ho; subst o'. tauto.
Qed.

Lemma strict_eq_string_prop o k s :
  strict_eq_string (prop (VObject o) k) s = false <-> o !! k <> Some (VString s).
Proof.
  simpl. destruct (o !! k) as [v|]; simpl.
  - destruct v; simpl; try (split; [intros _; congruence | done]).
    destruct (String.eqb_spec s0 s) as [->|Hne]; split; intros H; try congruence.
  - split; [intros _; discriminate | done].
Qed.

Lemma isIndexableMessage_true cfg msg :
  msg_keycount cfg = 7 ->
  msg_schema cfg = messageSchema ->
  isIndexableMessage date_time cfg msg = true <-> to_be_processed date_time msg.
Proof.
  intros Hk Hs. unfold isIndexableMessage, to_be_processed. rewrite Hk, Hs.
  destruct msg as [| |b|n|s|l|o];
    try (simpl; split; [discriminate | intros (o' & ? & _); discriminate]).
  - (* an array passes the [typeof] test and fails the schema *)
    cbn [typeof is_null keys_length].
    change (negb (String.eqb "object" "object") || false) with false.
    cbn match.
    split; [| intros (o' & ? & _); discriminate].
    destruct (_ >? _)%Z; [discriminate |].
    assert (jsonschema.validate date_time (VArray l) messageSchema = false)
      as -> by reflexivity.
    discriminate.
  - cbn [typeof is_null keys_length].
    change (negb (String.eqb "object" "object") || false) with false.
    cbn match.
    destruct (Z.gtb_spec (Z.of_nat (size o)) 7) as [Hgt|Hle].
    { split; [discriminate |]. intros (o' & Ho & Hsz & _).
      inversion Ho; subst o'. lia. }
    destruct (jsonschema.validate date_time (VObject o) messageSchema) eqn:Hv;
      cbn [negb].
    + apply validate_messageSchema in Hv as (o' & Ho & Hf).
      inversion Ho; subst o'.
      destruct (strict_eq_string (prop (VObject o) "type") "FOO") eqn:Ht.
      * split; [discriminate |]. intros (o' & Ho' & _ & H).
        inversion Ho'; subst o'.
        apply not_false_iff_true in Ht. exfalso. apply Ht.
        apply strict_eq_string_prop. tauto.
      * apply strict_eq_string_prop in Ht.
        split; [intros _ | done]. exists o. split; [done |].
        split; [lia |]. tauto.
    + split; [discriminate |]. intros (o' & Ho & _ & H).
      inversion Ho; subst o'.
      apply not_true_iff_false in Hv. exfalso. apply Hv.
      apply validate_messageSchema. exists o. tauto.
Qed.

(** C2: under the default key count and schema, [isIndexableMessage]
    returns true exactly for a keyed record with at most 7 top-level
    keys that has string fields [id], [attempt_id], [user_id], [type],
    numeric fields [progress], [score], a date-time formatted string
    [timestamp], and whose [type] is not ["FOO"]; on every other
    message it returns false. *)
Theorem isIndexableMessage_iff (cfg : config) (msg : value) :
  msg_keycount cfg = 7 ->
  msg_schema cfg = messageSchema ->
  (isIndexableMessage date_time cfg msg = true <-> to_be_processed date_time msg)
  /\ (isIndexableMessage date_time cfg msg = false
      <-> ~ to_be_processed date_time msg).
Proof.
  intros Hk Hs. pose proof (isIndexableMessage_true cfg msg Hk Hs) as Hiff.
  split; [exact Hiff |].
  rewrite <- Hiff. by destruct (isIndexableMessage date_time cfg msg).
Qed.

(** A message that passes has passed the schema. *)
Lemma indexable_validates cfg msg :
  isIndexableMessage date_time cfg msg = true ->
  jsonschema.validate date_time msg (msg_schema cfg) = true.
Proof.
  unfold isIndexableMessage.
  destruct (_ || _); [discriminate |].
  destruct (_ >? _)%Z; [discriminate |].
  by destruct (jsonschema.validate date_time msg (msg_schema cfg)).
Qed.

(** A message that passes is neither [null] nor [undefined]. *)
Lemma indexable_not_nullish cfg msg :
  isIndexableMessage date_time cfg msg = true -> nullish msg = false.
Proof. unfold isIndexableMessage. by destruct msg. Qed.

(** A message that passes validation against [messageSchema] is an
    object with a string timestamp. *)
Lemma indexable_timestamp cfg msg :
  msg_schema cfg = messageSchema ->
  isIndexableMessage date_time cfg msg = true ->
  exists o timestamp,
    msg = VObject o /\ o !! "timestamp" = Some (VString timestamp).
Proof.
  intros Hs Hv%indexable_validates. rewrite Hs in Hv.
  apply validate_messageSchema in Hv as (o & -> & Hf).
  destruct Hf as (_ & _ & _ & _ & (ts & Hts & _) & _). eauto.
Qed.

Lemma indexable_has_required cfg o :
  msg_schema cfg = messageSchema ->
  isIndexableMessage date_time cfg (VObject o) = true ->
  required_keys ⊆ dom o.
Proof.
  intros Hs Hv%indexable_validates. rewrite Hs in Hv.
  apply validate_messageSchema in Hv as (o' & [= <-] & Hf).
  destruct Hf as ([? Hid] & [? Hat] & (? & Hpr & _) & (? & Hsc & _)
                  & (? & Hts & _) & [? Hty] & [? Hus]).
  intros k Hk. apply elem_of_dom.
  unfold required_keys in Hk. cbn in Hk.
  rewrite !elem_of_union, !elem_of_singleton in Hk.
  destruct Hk as [->|[->|[->|[->|[->|[->|[->|Hk]]]]]]]; eauto.
  by apply elem_of_empty in Hk.
Qed.

Lemma size_required_keys : size required_keys = 7%nat.
Proof. by vm_compute. Qed.

(** One more key on a message that passes makes it fail. *)
Lemma eighth_key_rejected cfg o k v :
  msg_keycount cfg = 7 ->
  msg_schema cfg = messageSchema ->
  isIndexableMessage date_time cfg (VObject o) = true ->
  o !! k = None ->
  isIndexableMessage date_time cfg (VObject (<[k := v]> o)) = false.
Proof.
  intros Hk Hs Hv Hnone.
  pose proof (indexable_has_required cfg o Hs Hv) as Hsub.
  apply subseteq_size in Hsub. rewrite size_required_keys, size_dom in Hsub.
  unfold isIndexableMessage. rewrite Hk. cbn [typeof is_null keys_length].
  change (negb (String.eqb "object" "object") || false) with false.
  cbn match. rewrite map_size_insert_None by done.
  destruct (Z.gtb_spec (Z.of_nat (S (size o))) 7); [done | lia].
Qed.

(** A message of type ["FOO"] fails whatever else it holds. *)
Lemma type_FOO_rejected cfg o :
  isIndexableMessage date_time cfg (VObject (<["type" := VString "FOO"]> o)) = false.
Proof.
  unfold isIndexableMessage.
  destruct (_ || _); [done |].
  destruct (_ >? _)%Z; [done |].
  destruct (negb _); [done |].
  cbn [prop]. by rewrite lookup_insert_eq.
Qed.

End ValidationFacts.

(** ** Runs of sequenced programs *)

Lemma run_bind {A B : Type} (p : prog A) (f : A -> prog B) (w : world) :
  run w (bind p f) =
  let '(tr, r, w') := run w p in
  match r with
  | inl e => (tr, inl e, w')
  | inr a => let '(tr', r', w'') := run w' (f a) in (tr ++ tr', r', w'')
  end.
Proof.
  revert w. induction p as [a|e|t i k IH|k IH|o k IH|c k IH|v k IH|k IH];
    intros w; cbn [bind run].
  - by destruct (run w (f a)) as [[tr' r'] w''].
  - done.
  - rewrite IH. destruct (run w k) as [[tr [e|a]] w']; [done |].
    by destruct (run w' (f a)) as [[tr' r'] w''].
  - apply IH.
  - rewrite IH. destruct (run _ (k _)) as [[tr [e|a]] w']; [done |].
    by destruct (run w' (f a)) as [[tr' r'] w''].
  - rewrite IH. destruct (run _ (k _)) as [[tr [e|a]] w']; [done |].
    by destruct (run w' (f a)) as [[tr' r'] w''].
  - rewrite IH. destruct (run w k) as [[tr [e|a]] w']; [done |].
    by destruct (run w' (f a)) as [[tr' r'] w''].
  - apply IH.
Qed.

(** Turn by turn or in one go, a program leaves the same events. *)
Lemma run_advance {A : Type} (jobs : bool) (p : prog A) (w : world) :
  run w p =
  let '(tr, w', q) := advance jobs w p in
  let '(tr', r, w'') := resume w' q in
  (tr ++ tr', r, w'').
Proof.
  revert w. induction p as [a|e|t i k IH|k IH|o k IH|c k IH|v k IH|k IH];
    intros w; cbn [run advance resume].
  - done.
  - done.
  - rewrite IH. destruct (advance jobs w k) as [[tr w'] q].
    by destruct (resume w' q) as [[tr' r] w''].
  - apply IH.
  - by destruct (run _ (k _)) as [[tr r] w'].
  - by destruct (run _ (k _)) as [[tr r] w'].
  - rewrite IH. destruct (advance jobs w k) as [[tr w'] q].
    by destruct (resume w' q) as [[tr' r] w''].
  - destruct jobs; [apply IH |]. cbn [resume].
    by destruct (run w k) as [[tr r] w'].
Qed.

Lemma lookups_app tr tr' : lookups (tr ++ tr') = lookups tr ++ lookups tr'.
Proof. apply omap_app. Qed.

Lemma requests_app tr tr' : requests (tr ++ tr') = requests tr ++ requests tr'.
Proof. apply omap_app. Qed.

Lemma writes_app tr tr' : writes (tr ++ tr') = writes tr ++ writes tr'.
Proof. apply omap_app. Qed.

Lemma acks_app tr tr' : acks (tr ++ tr') = acks tr ++ acks tr'.
Proof. apply omap_app. Qed.

(** What is read off a trace distributes over its parts. *)
Create Rewrite HintDb events.
#[local] Hint Rewrite lookups_app requests_app writes_app acks_app : events.

(** ** The lookup gateway *)

(** C6: with an empty or absent [id] ([""], [undefined], [null]),
    [getDetails] is already settled on [null] when it returns: the
    program makes no call to [request], and in every world its run
    sends no request and leaves the world as it was. *)
Theorem getDetails_empty_id (cfg : config) (type : string) (id : value) (w : world) :
  id = VString "" \/ id = VUndefined \/ id = VNull ->
  getDetails cfg type id = Call type id (Ret (Fulfilled VNull))
  /\ run w (getDetails cfg type id) = ([EvCall type id], inr (Fulfilled VNull), w)
  /\ requests (trace w (getDetails cfg type id)) = [].
Proof.
  intros [-> | [-> | ->]]; repeat split; reflexivity.
Qed.

Lemma getDetails_falsy cfg type id :
  truthy id = false -> getDetails cfg type id = Call type id (Ret (Fulfilled VNull)).
Proof. intros H. unfold getDetails. by rewrite H. Qed.

(** With an [id], one request goes out and the promise settles on what
    the callback makes of the reply. *)
Lemma run_getDetails_truthy cfg type id w :
  truthy id = true ->
  run w (getDetails cfg type id)
  = ([EvCall type id; EvRequest (request_for cfg type id (uuid_v4 w 0%nat))],
     inr (callback (answer w 0%nat (request_for cfg type id (uuid_v4 w 0%nat)))),
     after_request (after_uuid w)).
Proof. intros Hid. unfold getDetails. by rewrite Hid. Qed.

Lemma run_getDetails_falsy cfg type id w :
  truthy id = false ->
  run w (getDetails cfg type id) = ([EvCall type id], inr (Fulfilled VNull), w).
Proof. intros Hid. by rewrite (getDetails_falsy _ _ _ Hid). Qed.

Lemma run_getDetails cfg type id w :
  run w (getDetails cfg type id)
  = (EvCall type id :: sent cfg type id w, inr (settles cfg type id w),
     world_after id w).
Proof.
  unfold sent, settles, world_after. destruct (truthy id) eqn:Hid.
  - by apply run_getDetails_truthy.
  - by apply run_getDetails_falsy.
Qed.

Lemma outcome_getDetails cfg type id w :
  outcome w (getDetails cfg type id) = inr (settles cfg type id w).
Proof. unfold outcome. by rewrite run_getDetails. Qed.

Lemma transport_error_dec a : {transport_error a} + {~ transport_error a}.
Proof.
  unfold transport_error. destruct (truthy (cb_error a)); [by left | by right].
Defined.

Lemma status_outside_2xx_dec a : {status_outside_2xx a} + {~ status_outside_2xx a}.
Proof.
  unfold status_outside_2xx. destruct (cb_response a) as [r|].
  - destruct (decide (statusCode r < 200 \/ 299 < statusCode r)%Z) as [H|H].
    + left. eauto.
    + right. intros (r' & [= <-] & ?). tauto.
  - right. intros (r' & ? & _). discriminate.
Defined.

Lemma lacks_payload_dec body : {lacks_payload body} + {~ lacks_payload body}.
Proof.
  unfold lacks_payload.
  destruct (truthy body); [| by left; left].
  destruct (truthy (prop body "result")); [| by left; right; left].
  destruct (truthy (prop (prop body "result") "data")); [| by left; right; right].
  right. intros [|[|]]; discriminate.
Defined.

(** The callback's verdict in terms of the reply. *)
Lemma callback_error a :
  transport_error a -> callback a = Rejected (cb_error a).
Proof.
  destruct a as [e r b]. unfold transport_error, callback; simpl. by intros ->.
Qed.

Lemma callback_status a r :
  ~ transport_error a -> cb_response a = Some r ->
  (statusCode r < 200 \/ 299 < statusCode r)%Z ->
  callback a = Rejected (number_of_Z (statusCode r)).
Proof.
  destruct a as [e r' b]. unfold transport_error, callback; simpl.
  intros He -> Hout. apply not_true_is_false in He. rewrite He.
  destruct (Z.ltb_spec (statusCode r) 200); [done |].
  destruct (Z.gtb_spec (statusCode r) 299); [done | lia].
Qed.

Lemma callback_body a :
  ~ transport_error a -> ~ status_outside_2xx a ->
  callback a =
  if lacks_payload_dec (cb_body a) then Fulfilled VNull
  else Fulfilled (prop (prop (cb_body a) "result") "data").
Proof.
  destruct a as [e r b]. unfold transport_error, status_outside_2xx, callback; simpl.
  intros He Hs. apply not_true_is_false in He. rewrite He.
  assert (match r with
          | Some r => (statusCode r <? 200)%Z || (statusCode r >? 299)%Z
          | None => false
          end = false) as ->.
  { destruct r as [r|]; [| done]. apply not_true_is_false. intros H.
    apply Hs. exists r. split; [done |].
    apply orb_true_iff in H as [H|H]; lia. }
  unfold lacks_payload_dec, lacks_payload.
  by destruct (truthy b), (truthy (prop b "result")),
    (truthy (prop (prop b "result") "data")).
Qed.

(** A fulfilled lookup gives [null] or a truthy record. *)
Lemma callback_fulfilled a v :
  callback a = Fulfilled v -> v = VNull \/ truthy v = true.
Proof.
  destruct a as [e r b]. unfold callback.
  destruct (truthy e); [discriminate |].
  destruct (match r with Some _ => _ | None => _ end); [discriminate |].
  destruct (truthy b); cbn [negb orb]; [| intros [= <-]; by left].
  destruct (truthy (prop b "result")); cbn [negb orb]; [| intros [= <-]; by left].
  destruct (truthy (prop (prop b "result") "data")) eqn:Hd; cbn [negb];
    intros [= <-]; [by right | by left].
Qed.

Lemma settles_fulfilled cfg type id w v :
  settles cfg type id w = Fulfilled v -> v = VNull \/ truthy v = true.
Proof.
  unfold settles. destruct (truthy id).
  - apply callback_fulfilled.
  - intros [= <-]. by left.
Qed.

(** C5: [getDetails] always settles.  Without an [id] it sends nothing
    and is fulfilled with [null].  With an [id] it posts one request and
    settles on what comes back: rejected exactly when the transport
    failed (the callback's [error]) or the reply's status code lies
    outside 200-299, with that error or that status code as the reason;
    fulfilled with [null] when the reply has no body, no [result] or no
    [result.data]; fulfilled with [body.result.data] otherwise. *)
Theorem getDetails_settles (cfg : config) (type : string) (id : value) (w : world) :
  exists s,
    outcome w (getDetails cfg type id) = inr s
    /\ (truthy id = false ->
        requests (trace w (getDetails cfg type id)) = [] /\ s = Fulfilled VNull)
    /\ (truthy id = true ->
        let o := request_for cfg type id (uuid_v4 w 0%nat) in
        let a := answer w 0%nat o in
        requests (trace w (getDetails cfg type id)) = [o]
        /\ ((exists reason, s = Rejected reason)
            <-> transport_error a \/ status_outside_2xx a)
        /\ (transport_error a -> s = Rejected (cb_error a))
        /\ (~ transport_error a ->
            forall r, cb_response a = Some r ->
              (statusCode r < 200 \/ 299 < statusCode r)%Z ->
              s = Rejected (number_of_Z (statusCode r)))
        /\ (~ transport_error a -> ~ status_outside_2xx a ->
            lacks_payload (cb_body a) -> s = Fulfilled VNull)
        /\ (~ transport_error a -> ~ status_outside_2xx a ->
            ~ lacks_payload (cb_body a) ->
            s = Fulfilled (prop (prop (cb_body a) "result") "data"))).
Proof.
  exists (settles cfg type id w). split; [apply outcome_getDetails |].
  unfold trace, settles. split; intros Hid.
  { by rewrite Hid, (run_getDetails_falsy _ _ _ _ Hid). }
  cbv zeta. rewrite Hid, (run_getDetails_truthy _ _ _ _ Hid).
  cbn [fst snd].
  set (o := request_for cfg type id (uuid_v4 w 0%nat)).
  set (a := answer w 0%nat o).
  split; [done |].
  split; [| split; [apply callback_error | split;
    [intros He r Hr Hout; by apply callback_status |]]].
  - split.
    + intros [reason Hr].
      destruct (transport_error_dec a) as [He|He]; [by left |].
      destruct (status_outside_2xx_dec a) as [Hs|Hs]; [by right |].
      rewrite (callback_body a He Hs) in Hr.
      by destruct (lacks_payload_dec (cb_body a)).
    + intros [He | Hs].
      * eexists. by apply callback_error.
      * destruct (transport_error_dec a) as [He|He].
        { eexists. by apply callback_error. }
        destruct Hs as (r & Hr & Hout). eexists. by apply (callback_status a r).
  - split; intros He Hs Hl; rewrite (callback_body a He Hs);
      by destruct (lacks_payload_dec (cb_body a)).
Qed.

(** ** The index writer *)

Lemma run_indexToElastic cfg msg timestamp w :
  prop msg "timestamp" = VString timestamp ->
  let c := document cfg msg timestamp (uuid_v4 w 0%nat) in
  run w (indexToElastic cfg msg)
  = (EvCreate c :: (if truthy (stored w 0%nat c) then [EvLog (stored w 0%nat c)] else []),
     inr tt, after_create (after_uuid w)).
Proof.
  intros Hts c. unfold indexToElastic. rewrite Hts. cbn [run].
  fold (document cfg msg timestamp (uuid_v4 w 0%nat)). fold c.
  change (stored (after_uuid w) 0%nat c) with (stored w 0%nat c).
  by destruct (truthy (stored w 0%nat c)).
Qed.

(** The text before the first [sep] of [date ++ sep ++ rest] is [date]
    when [date] has no [sep]. *)
Lemma split_head_app (sep : ascii) (date rest : string) :
  (forall c, c ∈ String.list_ascii_of_string date -> c <> sep) ->
  split_head sep (date +:+ String sep rest) = date.
Proof.
  induction date as [|c date IH]; intros Hno; simpl.
  - by rewrite Ascii.eqb_refl.
  - destruct (Ascii.eqb_spec c sep) as [->|Hne].
    + exfalso. apply (Hno sep); [| done]. simpl. by left.
    + f_equal. apply IH. intros c' Hc'. apply Hno. simpl. by right.
Qed.

(** C7: the document of a message whose [timestamp] is a string is
    written once, to the index named by the configured prefix followed
    by the text of the timestamp before its first ['T'], the calendar
    date of an ISO-8601 date-time; for ["2018-01-16T14:09:51.655Z"] and
    the prefix ["events-"] that index is ["events-2018-01-16"]. *)
Theorem indexToElastic_partition (cfg : config) (msg : value) (timestamp : string)
    (w : world) :
  prop msg "timestamp" = VString timestamp ->
  exists c,
    writes (trace w (indexToElastic cfg msg)) = [c]
    /\ es_body c = msg
    /\ es_index c = elastic_indexprefix cfg +:+ split_head "T" timestamp
    /\ (forall date rest,
          timestamp = date +:+ String "T" rest ->
          (forall ch, ch ∈ String.list_ascii_of_string date -> ch <> "T"%char) ->
          es_index c = elastic_indexprefix cfg +:+ date)
    /\ (elastic_indexprefix cfg = "events-" ->
        timestamp = "2018-01-16T14:09:51.655Z" ->
        es_index c = "events-2018-01-16").
Proof.
  intros Hts. exists (document cfg msg timestamp (uuid_v4 w 0%nat)).
  unfold trace. rewrite (run_indexToElastic _ _ _ _ Hts). cbn [fst].
  split.
  { cbn [writes omap]. by destruct (truthy _). }
  split; [done |]. split; [done |]. split.
  - intros date rest -> Hno. cbn [document es_index].
    by rewrite split_head_app.
  - intros Hp ->. cbn [document es_index]. by rewrite Hp.
Qed.

(** ** The chain of lookups *)

Lemma hydrateAndIndex_nullish cfg msg :
  nullish msg = true ->
  exists message, hydrateAndIndex cfg msg = Throw (TypeError message).
Proof. intros Hn. unfold hydrateAndIndex. cbv zeta. rewrite Hn. eauto. Qed.

Lemma prop_string_not_nullish msg k s : prop msg k = VString s -> nullish msg = false.
Proof. by destruct msg. Qed.

Lemma hydrateAndIndex_stages cfg msg :
  nullish msg = false ->
  hydrateAndIndex cfg msg =
  (m1 <- stage cfg "attempt" (prop msg "attempt_id") msg (with_attempt msg) ;;
   Tick (
   m2 <- stage cfg "course" (prop m1 "course_id") m1 (set_prop m1 "course") ;;
   Tick (
   m3 <- stage cfg "trainee" (prop m2 "trainee_id") m2 (set_prop m2 "trainee") ;;
   Tick (
   m4 <- stage cfg "user" (prop m3 "user_id") m3 (set_prop m3 "user") ;;
   Tick (indexToElastic cfg m4))))).
Proof. intros Hn. unfold hydrateAndIndex. cbv zeta. by rewrite Hn. Qed.

Lemma run_stage cfg type id (m : value) (upd : value -> value) w :
  run w (stage cfg type id m upd)
  = (stage_events cfg type id w (settles cfg type id w),
     inr (merged m upd (settles cfg type id w)), world_after id w).
Proof.
  unfold stage, then_, stage_events. rewrite run_bind, run_getDetails.
  destruct (settles cfg type id w) as [result|err]; cbn [run merged logged].
  - destruct (truthy result); cbn [run]; by rewrite !app_nil_r.
  - done.
Qed.

(** The run of [hydrateAndIndex], stage by stage. *)
Lemma run_hydrateAndIndex cfg msg w :
  nullish msg = false ->
  run w (hydrateAndIndex cfg msg)
  = let '(tr5, r5, w5) := run (w_user cfg msg w) (indexToElastic cfg (m_user cfg msg w)) in
    (stage_events cfg "attempt" (prop msg "attempt_id") w
       (settles cfg "attempt" (prop msg "attempt_id") w)
     ++ stage_events cfg "course" (prop (m_attempt cfg msg w) "course_id")
          (w_attempt msg w)
          (settles cfg "course" (prop (m_attempt cfg msg w) "course_id")
             (w_attempt msg w))
     ++ stage_events cfg "trainee" (prop (m_course cfg msg w) "trainee_id")
          (w_course cfg msg w)
          (settles cfg "trainee" (prop (m_course cfg msg w) "trainee_id")
             (w_course cfg msg w))
     ++ stage_events cfg "user" (prop (m_trainee cfg msg w) "user_id")
          (w_trainee cfg msg w)
          (settles cfg "user" (prop (m_trainee cfg msg w) "user_id")
             (w_trainee cfg msg w))
     ++ tr5, r5, w5).
Proof.
  intros Hn. rewrite hydrateAndIndex_stages by done.
  rewrite run_bind, run_stage. cbn [run]. fold (m_attempt cfg msg w) (w_attempt msg w).
  rewrite run_bind, run_stage. cbn [run].
  fold (m_course cfg msg w) (w_course cfg msg w).
  rewrite run_bind, run_stage. cbn [run].
  fold (m_trainee cfg msg w) (w_trainee cfg msg w).
  rewrite run_bind, run_stage. cbn [run].
  fold (m_user cfg msg w) (w_user cfg msg w).
  by destruct (run _ (indexToElastic _ _)) as [[tr5 r5] w5].
Qed.

Lemma prop_set_prop_ne m k k' x :
  k <> k' -> prop (set_prop m k x) k' = prop m k'.
Proof.
  intros Hne. destruct m; try done. simpl. by rewrite lookup_insert_ne.
Qed.

Lemma prop_merged_ne m k k' s :
  k <> k' -> prop (merged m (set_prop m k) s) k' = prop m k'.
Proof.
  intros Hne. destruct s as [result|err]; simpl; [| done].
  destruct (truthy result); [by apply prop_set_prop_ne | done].
Qed.

Lemma prop_with_attempt_ne m result k :
  k <> "attempt" -> k <> "course_id" -> k <> "trainee_id" ->
  prop (with_attempt m result) k = prop m k.
Proof.
  intros H1 H2 H3. unfold with_attempt.
  by rewrite !prop_set_prop_ne.
Qed.

Lemma prop_merged_attempt_ne m s k :
  k <> "attempt" -> k <> "course_id" -> k <> "trainee_id" ->
  prop (merged m (with_attempt m) s) k = prop m k.
Proof.
  intros H1 H2 H3. destruct s as [result|err]; simpl; [| done].
  destruct (truthy result); [by apply prop_with_attempt_ne | done].
Qed.

Lemma prop_with_attempt o result :
  prop (with_attempt (VObject o) result) "attempt" = result
  /\ prop (with_attempt (VObject o) result) "course_id" = prop result "course_id"
  /\ prop (with_attempt (VObject o) result) "trainee_id" = prop result "trainee_id".
Proof.
  unfold with_attempt. cbv zeta. cbn [set_prop prop].
  repeat split;
    repeat first [rewrite lookup_insert_eq | rewrite lookup_insert_ne by done];
    done.
Qed.

(** The chain touches none of the fields the message came with. *)
Lemma m_user_keeps cfg msg w k :
  k <> "attempt" -> k <> "course_id" -> k <> "trainee_id" ->
  k <> "course" -> k <> "trainee" -> k <> "user" ->
  prop (m_user cfg msg w) k = prop msg k.
Proof.
  intros. unfold m_user, m_trainee, m_course, m_attempt. cbv zeta.
  by rewrite !prop_merged_ne, prop_merged_attempt_ne.
Qed.

Lemma m_trainee_user_id cfg msg w :
  prop (m_trainee cfg msg w) "user_id" = prop msg "user_id".
Proof.
  unfold m_trainee, m_course, m_attempt. cbv zeta.
  by rewrite !prop_merged_ne, prop_merged_attempt_ne.
Qed.

(** The whole run of the chain on a message with a string timestamp. *)
Lemma run_chain cfg msg w timestamp :
  prop msg "timestamp" = VString timestamp ->
  let c := document cfg (m_user cfg msg w) timestamp
             (uuid_v4 (w_user cfg msg w) 0%nat) in
  run w (hydrateAndIndex cfg msg)
  = (stage_events cfg "attempt" (prop msg "attempt_id") w
       (settles cfg "attempt" (prop msg "attempt_id") w)
     ++ stage_events cfg "course" (prop (m_attempt cfg msg w) "course_id")
          (w_attempt msg w)
          (settles cfg "course" (prop (m_attempt cfg msg w) "course_id")
             (w_attempt msg w))
     ++ stage_events cfg "trainee" (prop (m_course cfg msg w) "trainee_id")
          (w_course cfg msg w)
          (settles cfg "trainee" (prop (m_course cfg msg w) "trainee_id")
             (w_course cfg msg w))
     ++ stage_events cfg "user" (prop (m_trainee cfg msg w) "user_id")
          (w_trainee cfg msg w)
          (settles cfg "user" (prop (m_trainee cfg msg w) "user_id")
             (w_trainee cfg msg w))
     ++ EvCreate c
        :: (if truthy (stored (w_user cfg msg w) 0%nat c)
            then [EvLog (stored (w_user cfg msg w) 0%nat c)] else []),
     inr tt, after_create (after_uuid (w_user cfg msg w))).
Proof.
  intros Hts c.
  rewrite run_hydrateAndIndex by by apply (prop_string_not_nullish msg "timestamp" timestamp).
  rewrite (run_indexToElastic cfg (m_user cfg msg w) timestamp); [done |].
  by rewrite m_user_keeps.
Qed.

(** ** The trace of the chain, stage by stage *)

Lemma lookups_stage cfg type id w s :
  lookups (stage_events cfg type id w s) = [(type, id)].
Proof. unfold stage_events, sent. by destruct (truthy id), s. Qed.

Lemma writes_stage cfg type id w s :
  writes (stage_events cfg type id w s) = [].
Proof. unfold stage_events, sent. by destruct (truthy id), s. Qed.

#[local] Hint Rewrite lookups_stage writes_stage : events.

Lemma stages_from_stage cfg type id w s rest :
  stages_from (stage_events cfg type id w s ++ rest)
  = ([], (type, id, requests (sent cfg type id w) ++ (stages_from rest).1)
         :: (stages_from rest).2).
Proof.
  unfold stage_events, sent.
  destruct (truthy id), s; cbn; by destruct (stages_from rest).
Qed.

Lemma stages_from_write c (log : list event) :
  (forall e, e ∈ log -> exists v, e = EvLog v) ->
  stages_from (EvCreate c :: log) = ([], []).
Proof.
  intros Hlog. cbn [stages_from].
  assert (stages_from log = ([], [])) as ->; [| done].
  induction log as [|e log IH]; [done |].
  destruct (Hlog e) as [v ->]; [by left |].
  cbn [stages_from]. rewrite IH; [done |].
  intros e' He'. apply Hlog. by right.
Qed.

Lemma requests_sent cfg type id w o :
  o ∈ requests (sent cfg type id w) ->
  rpc_params_id (ro_json o) = id /\ rpc_method (ro_json o) = method_of cfg type.
Proof.
  unfold sent. destruct (truthy id); cbn [requests omap].
  - intros ->%list_elem_of_singleton. done.
  - by intros ?%elem_of_nil.
Qed.

Lemma lookups_chain cfg msg w timestamp :
  prop msg "timestamp" = VString timestamp ->
  lookups (trace w (hydrateAndIndex cfg msg))
  = [("attempt", prop msg "attempt_id");
     ("course", prop (m_attempt cfg msg w) "course_id");
     ("trainee", prop (m_course cfg msg w) "trainee_id");
     ("user", prop msg "user_id")].
Proof.
  intros Hts. unfold trace. rewrite (run_chain _ _ _ _ Hts). cbn [fst].
  autorewrite with events. rewrite m_trainee_user_id. cbn [lookups omap].
  by destruct (truthy _).
Qed.

Lemma writes_chain cfg msg w timestamp :
  prop msg "timestamp" = VString timestamp ->
  writes (trace w (hydrateAndIndex cfg msg))
  = [document cfg (m_user cfg msg w) timestamp (uuid_v4 (w_user cfg msg w) 0%nat)].
Proof.
  intros Hts. unfold trace. rewrite (run_chain _ _ _ _ Hts). cbn [fst].
  autorewrite with events. cbn [writes omap].
  by destruct (truthy _).
Qed.

Lemma by_stage_chain cfg msg w timestamp :
  prop msg "timestamp" = VString timestamp ->
  by_stage (trace w (hydrateAndIndex cfg msg))
  = [("attempt", prop msg "attempt_id",
      requests (sent cfg "attempt" (prop msg "attempt_id") w));
     ("course", prop (m_attempt cfg msg w) "course_id",
      requests (sent cfg "course" (prop (m_attempt cfg msg w) "course_id")
                  (w_attempt msg w)));
     ("trainee", prop (m_course cfg msg w) "trainee_id",
      requests (sent cfg "trainee" (prop (m_course cfg msg w) "trainee_id")
                  (w_course cfg msg w)));
     ("user", prop msg "user_id",
      requests (sent cfg "user" (prop msg "user_id") (w_trainee cfg msg w)))].
Proof.
  intros Hts. unfold by_stage, trace. rewrite (run_chain _ _ _ _ Hts). cbn [fst].
  rewrite !stages_from_stage, m_trainee_user_id. rewrite stages_from_write.
  - cbn [fst snd]. by rewrite !app_nil_r.
  - intros e He. destruct (truthy _); [| by apply elem_of_nil in He].
    apply list_elem_of_singleton in He. eauto.
Qed.

Section PipelineFacts.

Variable date_time : string -> bool.

(** C3: for a message that has passed validation, whatever the lookup
    service answers to each request (a record, nothing, an error
    status, a transport failure), the four lookups [attempt], [course],
    [trainee], [user] are all entered, once each and in that order, the
    document is written exactly once, and the chain ends without an
    exception. *)
Theorem hydrateAndIndex_every_stage (cfg : config) (msg : value) (w : world) :
  msg_schema cfg = messageSchema ->
  isIndexableMessage date_time cfg msg = true ->
  let tr := trace w (hydrateAndIndex cfg msg) in
  (lookups tr).*1 = ["attempt"; "course"; "trainee"; "user"]
  /\ (exists c, writes tr = [c])
  /\ outcome w (hydrateAndIndex cfg msg) = inr tt.
Proof.
  intros Hs Hv tr.
  destruct (indexable_timestamp date_time cfg msg Hs Hv) as (o & ts & -> & Hts).
  assert (prop (VObject o) "timestamp" = VString ts) as Hp.
  { simpl. by rewrite Hts. }
  unfold tr. split; [| split].
  - by rewrite (lookups_chain _ _ _ _ Hp).
  - rewrite (writes_chain _ _ _ _ Hp). eauto.
  - unfold outcome. by rewrite (run_chain _ _ _ _ Hp).
Qed.

(** C4: when the lookup of [attempt] resolves to a record, the message
    gets [attempt], [course_id] and [trainee_id] from it; the lookups
    are entered in the order attempt, course, trainee, user, those of
    course and trainee with the record's [course_id] and [trainee_id],
    and every request they send carries that identifier. *)
Theorem attempt_ids_feed_lookups (cfg : config) (msg : value) (w : world)
    (result : value) :
  msg_schema cfg = messageSchema ->
  isIndexableMessage date_time cfg msg = true ->
  outcome w (getDetails cfg "attempt" (prop msg "attempt_id"))
    = inr (Fulfilled result) ->
  result <> VNull ->
  let tr := trace w (hydrateAndIndex cfg msg) in
  (exists r1 r2 r3 r4,
      by_stage tr
      = [("attempt", prop msg "attempt_id", r1);
         ("course", prop result "course_id", r2);
         ("trainee", prop result "trainee_id", r3);
         ("user", prop msg "user_id", r4)]
      /\ (forall o, o ∈ r2 -> rpc_params_id (ro_json o) = prop result "course_id")
      /\ (forall o, o ∈ r3 -> rpc_params_id (ro_json o) = prop result "trainee_id"))
  /\ (exists c,
        writes tr = [c]
        /\ prop (es_body c) "attempt" = result
        /\ prop (es_body c) "course_id" = prop result "course_id"
        /\ prop (es_body c) "trainee_id" = prop result "trainee_id").
Proof.
  intros Hs Hv Hout Hnn tr.
  destruct (indexable_timestamp date_time cfg msg Hs Hv) as (o & ts & -> & Hts).
  assert (prop (VObject o) "timestamp" = VString ts) as Hp.
  { simpl. by rewrite Hts. }
  rewrite outcome_getDetails in Hout. injection Hout as Hout.
  assert (truthy result = true) as Ht.
  { by destruct (settles_fulfilled _ _ _ _ _ Hout). }
  assert (m_attempt cfg (VObject o) w = with_attempt (VObject o) result) as Hm1.
  { unfold m_attempt. cbn [prop] in Hout |- *. rewrite Hout.
    cbn [merged]. by rewrite Ht. }
  destruct (prop_with_attempt o result) as (Ha & Hc & Htr).
  assert (prop (m_course cfg (VObject o) w) "trainee_id"
          = prop result "trainee_id") as Hm2.
  { unfold m_course. cbv zeta. by rewrite prop_merged_ne, Hm1, Htr. }
  unfold tr. split.
  - rewrite (by_stage_chain _ _ _ _ Hp), Hm2, Hm1, Hc.
    eexists _, _, _, _. split; [reflexivity |].
    split; intros o' Ho'; by apply requests_sent in Ho' as [? _].
  - rewrite (writes_chain _ _ _ _ Hp). eexists. split; [reflexivity |].
    cbn [document es_body]. unfold m_user, m_trainee, m_course. cbv zeta.
    by rewrite !prop_merged_ne, Hm1, Ha, Hc, Htr.
Qed.

End PipelineFacts.

(** C10: when the lookup of [attempt] gives no record (it settles on
    [null], as it does at once without an [attempt_id], or it is
    rejected) and the message came with neither [course_id] nor
    [trainee_id], the lookups of course and trainee are entered with
    [undefined] and send no request, and the document written is the
    message as it came, with at most [user] added. *)
Theorem no_attempt_skips_course_and_trainee (cfg : config)
    (o : gmap string value) (timestamp : string) (w : world) (s1 : settled) :
  o !! "timestamp" = Some (VString timestamp) ->
  o !! "course_id" = None ->
  o !! "trainee_id" = None ->
  outcome w (getDetails cfg "attempt" (prop (VObject o) "attempt_id")) = inr s1 ->
  (s1 = Fulfilled VNull \/ exists err, s1 = Rejected err) ->
  let tr := trace w (hydrateAndIndex cfg (VObject o)) in
  (exists r1 r4,
      by_stage tr
      = [("attempt", prop (VObject o) "attempt_id", r1);
         ("course", VUndefined, []);
         ("trainee", VUndefined, []);
         ("user", prop (VObject o) "user_id", r4)])
  /\ (exists c,
        writes tr = [c]
        /\ (es_body c = VObject o
            \/ exists u, es_body c = VObject (<["user" := u]> o))).
Proof.
  intros Hts Hc Ht Hout Hs1 tr.
  assert (prop (VObject o) "timestamp" = VString timestamp) as Hp.
  { simpl. by rewrite Hts. }
  rewrite outcome_getDetails in Hout. injection Hout as Hout.
  assert (m_attempt cfg (VObject o) w = VObject o) as Hm1.
  { unfold m_attempt. cbn [prop] in Hout |- *. rewrite Hout.
    by destruct Hs1 as [-> | [err ->]]. }
  assert (prop (VObject o) "course_id" = VUndefined) as Hpc.
  { simpl. by rewrite Hc. }
  assert (prop (VObject o) "trainee_id" = VUndefined) as Hpt.
  { simpl. by rewrite Ht. }
  assert (m_course cfg (VObject o) w = VObject o) as Hm2.
  { unfold m_course. cbv zeta. by rewrite Hm1, Hpc. }
  assert (m_trainee cfg (VObject o) w = VObject o) as Hm3.
  { unfold m_trainee. cbv zeta. by rewrite Hm2, Hpt. }
  unfold tr. split.
  - rewrite (by_stage_chain _ _ _ _ Hp), Hm2, Hm1, Hpc, Hpt.
    change (sent cfg ?t VUndefined ?w) with (@nil event).
    cbn [requests omap]. eauto.
  - rewrite (writes_chain _ _ _ _ Hp).
    eexists. split; [reflexivity |]. cbn [document es_body].
    unfold m_user. cbv zeta. rewrite Hm3.
    destruct (settles cfg "user" _ _) as [u|err]; cbn [merged]; [| by left].
    destruct (truthy u); [right | by left]. eauto.
Qed.

(** ** The filter in front of the chain *)

Section Filter.

Variable date_time : string -> bool.

(** C8: on a message [isIndexableMessage] rejects, [transformMessage]
    does nothing: in every world no lookup is entered, no request is
    sent and nothing is written; so it is for a message that passes but
    for an eighth key, and for one of type ["FOO"].  On a message
    [isIndexableMessage] accepts, it is [hydrateAndIndex] on that
    message, which begins by entering the lookup of [attempt]. *)
Theorem transformMessage_filters (cfg : config) (msg : value) :
  (isIndexableMessage date_time cfg msg = false ->
   transformMessage date_time cfg msg = Ret tt
   /\ forall w, trace w (transformMessage date_time cfg msg) = [])
  /\ (isIndexableMessage date_time cfg msg = true ->
      transformMessage date_time cfg msg = hydrateAndIndex cfg msg
      /\ forall w, exists tr,
           trace w (transformMessage date_time cfg msg)
           = EvCall "attempt" (prop msg "attempt_id") :: tr)
  /\ (forall o k v,
        msg_keycount cfg = 7 -> msg_schema cfg = messageSchema ->
        isIndexableMessage date_time cfg (VObject o) = true ->
        o !! k = None ->
        forall w,
          trace w (transformMessage date_time cfg (VObject (<[k := v]> o))) = [])
  /\ (forall o w,
        trace w (transformMessage date_time cfg
                   (VObject (<["type" := VString "FOO"]> o))) = []).
Proof.
  unfold transformMessage. split; [| split; [| split]].
  - intros Hf. rewrite Hf. by split.
  - intros Ht. rewrite Ht. split; [done |]. intros w. unfold trace.
    rewrite run_hydrateAndIndex by by apply (indexable_not_nullish date_time cfg).
    destruct (run _ (indexToElastic _ _)) as [[tr5 r5] w5]. cbn [fst].
    eexists. reflexivity.
  - intros o k v Hk Hs Hv Hnone w.
    by rewrite (eighth_key_rejected date_time cfg o k v Hk Hs Hv Hnone).
  - intros o w. by rewrite type_FOO_rejected.
Qed.

(** C9: [isIndexableMessage], run step by step on the memory it can
    reach, with a [validate] that gives its verdict and touches
    nothing (jsonschema's, which is not part of the source): it ends at
    once on the verdict of the function [isIndexableMessage] and leaves
    the memory as it found it, so the message keeps every field with
    its value and gets none, and the configuration stays; it enters no
    lookup, sends no request, writes and prints nothing, draws nothing
    from the world, waits for no callback and queues no job, and raises
    nothing.  In two memories that hold equal messages and
    configurations with the same key count and schema the verdict is
    the same.  The message [transformMessage] hands on to the chain is
    the message as it was given. *)
Theorem isIndexableMessage_pure
    (validate : jsonschema.schema -> Stepwise.action bool) (m : Stepwise.memory) :
  (forall schema m0,
     validate schema m0
     = Ret (jsonschema.validate date_time (Stepwise.referent m0) schema, m0)) ->
  let verdict :=
    isIndexableMessage date_time (Stepwise.module_config m) (Stepwise.referent m) in
  Stepwise.isIndexableMessage validate m = Ret (verdict, m)
  /\ (forall w,
        run w (Stepwise.isIndexableMessage validate m) = ([], inr (verdict, m), w))
  /\ (forall jobs w,
        advance jobs w (Stepwise.isIndexableMessage validate m)
        = ([], w, Finished (inr (verdict, m))))
  /\ (forall m',
        Stepwise.referent m' = Stepwise.referent m ->
        msg_keycount (Stepwise.module_config m')
        = msg_keycount (Stepwise.module_config m) ->
        msg_schema (Stepwise.module_config m')
        = msg_schema (Stepwise.module_config m) ->
        Stepwise.isIndexableMessage validate m' = Ret (verdict, m'))
  /\ Stepwise.transformMessage validate m
     = transformMessage date_time (Stepwise.module_config m) (Stepwise.referent m).
Proof.
  intros Hval verdict.
  assert (forall m0,
            Stepwise.isIndexableMessage validate m0
            = Ret (isIndexableMessage date_time (Stepwise.module_config m0)
                     (Stepwise.referent m0), m0)) as Hsteps.
  { intros m0. unfold Stepwise.isIndexableMessage, isIndexableMessage.
    destruct (_ || _); [done |].
    destruct (_ >? _)%Z; [done |].
    rewrite Hval. cbn [bind].
    destruct (jsonschema.validate _ _ _); cbn [negb]; [| done].
    by destruct (strict_eq_string _ _). }
  split; [apply Hsteps |].
  split; [intros w; by rewrite Hsteps |].
  split; [intros jobs w; by rewrite Hsteps |].
  split.
  - intros m' Hm Hk Hs. rewrite Hsteps. unfold verdict, isIndexableMessage.
    by rewrite Hm, Hk, Hs.
  - unfold Stepwise.transformMessage, transformMessage. rewrite Hsteps.
    cbn [bind]. fold verdict. by destruct verdict.
Qed.

End Filter.

(** ** The reader *)

Lemma acks_advance {A : Type} (jobs : bool) (w : world) (p : prog A) :
  acks (advance jobs w p).1.1 = [].
Proof.
  revert w. induction p as [a|e|t i k IH|k IH|o k IH|c k IH|v k IH|k IH];
    intros w; cbn [advance]; try done;
    try (specialize (IH w); by destruct (advance jobs w k) as [[tr w'] q]).
  destruct jobs; [apply IH | done].
Qed.

Lemma acks_hear {A : Type} (w : world) (q : paused A) :
  acks (hear w q).1.1 = [].
Proof. destruct q; cbn [hear]; try done; apply acks_advance. Qed.

(** The synchronous part of the chain ends on a pending request or on a
    queued job, never on an exception. *)
Lemma advance_hydrateAndIndex cfg msg w :
  nullish msg = false ->
  exists tr w' q,
    advance false w (hydrateAndIndex cfg msg) = (tr, w', q)
    /\ ((exists o k, q = AwaitingReply o k) \/ (exists k, q = Deferred k)).
Proof.
  intros Hn. unfold hydrateAndIndex, then_, getDetails. cbv zeta. rewrite Hn.
  destruct (truthy (prop msg "attempt_id")); cbn [negb bind advance];
    eexists _, _, _; (split; [reflexivity |]); eauto.
Qed.

Section ReaderFacts.

Variable date_time : string -> bool.

Variable JSON_parse : string -> exn + value.

(** A payload that parses is acknowledged in the turn of its delivery. *)
Lemma on_message_decoded cfg w msg decoded :
  JSON_parse (m_body msg) = inr decoded ->
  exists tr w' q,
    on_message date_time JSON_parse cfg w msg = (tr, w', inr q)
    /\ acks tr = [m_id msg].
Proof.
  intros Hd. unfold on_message. rewrite Hd. unfold transformMessage.
  destruct (isIndexableMessage date_time cfg decoded) eqn:Hv.
  - destruct (advance_hydrateAndIndex cfg decoded w
                (indexable_not_nullish date_time cfg decoded Hv))
      as (tr1 & w1 & q1 & Hadv & Hq).
    pose proof (acks_advance false w (hydrateAndIndex cfg decoded)) as Ha.
    rewrite Hadv in *. cbn [fst snd] in Ha.
    destruct Hq as [(o & k & ->) | (k & ->)].
    + eexists _, _, _. split; [reflexivity |].
      by rewrite acks_app, Ha.
    + pose proof (acks_advance true w1 k) as Ha2.
      destruct (advance true w1 k) as [[tr2 w2] q2]. cbn [fst snd] in Ha2.
      eexists _, _, _. split; [reflexivity |].
      rewrite acks_app, Ha.
      change (acks (EvFinish (m_id msg) :: tr2)) with (m_id msg :: acks tr2).
      by rewrite Ha2.
  - cbn [advance]. eexists _, _, _. by split.
Qed.

Lemma step_decoded cfg r msg decoded :
  down r = None ->
  JSON_parse (m_body msg) = inr decoded ->
  down (step date_time JSON_parse cfg r (Delivered msg)) = None
  /\ acks (seen (step date_time JSON_parse cfg r (Delivered msg)))
     = acks (seen r) ++ [m_id msg].
Proof.
  intros Hup Hd. unfold step. rewrite Hup.
  destruct (on_message_decoded cfg (env r) msg decoded Hd)
    as (tr & w' & q & -> & Ha).
  cbn [down seen]. by rewrite acks_app, Ha.
Qed.

Lemma step_heard cfg r n :
  down r = None ->
  down (step date_time JSON_parse cfg r (Heard n)) = None
  /\ acks (seen (step date_time JSON_parse cfg r (Heard n))) = acks (seen r).
Proof.
  intros Hup. unfold step. rewrite Hup.
  destruct (inflight r !! n) as [q|]; [| done].
  pose proof (acks_hear (env r) q) as Ha.
  destruct (hear (env r) q) as [[tr w'] q']. cbn [fst snd] in Ha.
  cbn [down seen]. by rewrite acks_app, Ha, app_nil_r.
Qed.

Lemma steps_decoded cfg hs r :
  down r = None ->
  (forall msg, Delivered msg ∈ hs ->
     exists decoded, JSON_parse (m_body msg) = inr decoded) ->
  down (fold_left (step date_time JSON_parse cfg) hs r) = None
  /\ acks (seen (fold_left (step date_time JSON_parse cfg) hs r))
     = acks (seen r) ++ delivered hs.
Proof.
  revert r. induction hs as [|h hs IH]; intros r Hup Hall.
  - cbn. by rewrite app_nil_r.
  - cbn [fold_left].
    assert (forall msg, Delivered msg ∈ hs ->
              exists decoded, JSON_parse (m_body msg) = inr decoded) as Hall'.
    { intros msg Hm. apply Hall. by right. }
    destruct h as [msg|n].
    + destruct (Hall msg) as [decoded Hd]; [by left |].
      destruct (step_decoded cfg r msg decoded Hup Hd) as [Hup' Ha].
      destruct (IH _ Hup' Hall') as [Hup'' Ha'].
      split; [done |]. rewrite Ha', Ha. cbn [delivered omap].
      by rewrite <- app_assoc.
    + destruct (step_heard cfg r n Hup) as [Hup' Ha].
      destruct (IH _ Hup' Hall') as [Hup'' Ha'].
      split; [done |]. by rewrite Ha', Ha.
Qed.

(** C1, as the code has it: a payload that [JSON.parse] accepts,
    whatever it decodes to, is acknowledged once, in the turn of its
    delivery and so before any reply of the lookup service or of the
    store is heard; a reader that is delivered such payloads only
    stays up and acknowledges every one of them, in the order of
    delivery, in every world and however the callbacks of the chains
    in flight fall between the deliveries.  A payload that
    [JSON.parse] rejects makes the listener raise before it does
    anything else. *)
Theorem reader_acknowledges_decoded (cfg : config) (w : world) (hs : list happening) :
  (forall msg, Delivered msg ∈ hs ->
     exists decoded, JSON_parse (m_body msg) = inr decoded) ->
  let r := startReader date_time JSON_parse cfg w hs in
  down r = None
  /\ acks (seen r) = delivered hs
  /\ (forall msg w0, Delivered msg ∈ hs ->
        exists tr w' q,
          on_message date_time JSON_parse cfg w0 msg = (tr, w', inr q)
          /\ acks tr = [m_id msg])
  /\ (forall msg w0 e,
        JSON_parse (m_body msg) = inl e ->
        on_message date_time JSON_parse cfg w0 msg = ([], w0, inl e)).
Proof.
  intros Hall r. unfold r, startReader.
  destruct (steps_decoded cfg hs
              {| seen := []; env := w; inflight := []; down := None |}
              eq_refl Hall) as [Hup Ha].
  split; [done |]. split; [done |]. split.
  - intros msg w0 Hm. destruct (Hall msg Hm) as [decoded Hd].
    by apply (on_message_decoded cfg w0 msg decoded).
  - intros msg w0 e He. unfold on_message. by rewrite He.
Qed.

End ReaderFacts.

(** ** The facts at the sample inputs *)

(** The validation test of the source: the event passes; with a key too
    many, a malformed timestamp, no [type], or the type ["FOO"], it does
    not. *)
Lemma sample_event_indexable :
  isIndexableMessage sample_date_time defaultConfig (VObject sample_event) = true.
Proof. by vm_compute. Qed.

Example validation_test :
  isIndexableMessage sample_date_time defaultConfig
    (VObject (<["bad_key" := VString "Bad"]> sample_event)) = false
  /\ isIndexableMessage sample_date_time defaultConfig
       (VObject (<["timestamp" := VString "Bad"]> sample_event)) = false
  /\ isIndexableMessage sample_date_time defaultConfig
       (VObject (delete "type" sample_event)) = false
  /\ isIndexableMessage sample_date_time defaultConfig
       (VObject (<["type" := VString "FOO"]> sample_event)) = false.
Proof. repeat split; by vm_compute. Qed.

Lemma isIndexableMessage_iff_witness :
  msg_keycount defaultConfig = 7
  /\ msg_schema defaultConfig = messageSchema
  /\ to_be_processed sample_date_time (VObject sample_event)
  /\ ~ to_be_processed sample_date_time (VArray []).
Proof.
  split; [reflexivity |]. split; [reflexivity |]. split.
  - apply (proj1 (isIndexableMessage_iff sample_date_time defaultConfig
                    (VObject sample_event) eq_refl eq_refl)).
    exact sample_event_indexable.
  - apply (proj2 (isIndexableMessage_iff sample_date_time defaultConfig
                    (VArray []) eq_refl eq_refl)).
    reflexivity.
Defined.

Lemma getDetails_empty_id_witness :
  getDetails defaultConfig "trainee" (VString "")
  = Call "trainee" (VString "") (Ret (Fulfilled VNull))
  /\ run sample_world (getDetails defaultConfig "trainee" (VString ""))
     = ([EvCall "trainee" (VString "")], inr (Fulfilled VNull), sample_world)
  /\ requests (trace sample_world (getDetails defaultConfig "trainee" (VString "")))
     = [].
Proof.
  apply (getDetails_empty_id defaultConfig "trainee" (VString "") sample_world).
  by left.
Defined.

Lemma getDetails_settles_witness :
  outcome sample_world
    (getDetails defaultConfig "attempt"
       (VString "e70a6ecf-f308-4306-831d-bb41c851061d"))
  = inr (Fulfilled sample_attempt)
  /\ outcome (after_request sample_world)
       (getDetails defaultConfig "course" (VString "c-101"))
     = inr (Rejected (number_of_Z 500))
  /\ outcome silent_world (getDetails defaultConfig "course" (VString "c-101"))
     = inr (Rejected (cb_error timed_out))
  /\ outcome silent_world (getDetails defaultConfig "course" VUndefined)
     = inr (Fulfilled VNull).
Proof.
  split; [| split; [| split]].
  - destruct (getDetails_settles defaultConfig "attempt"
                (VString "e70a6ecf-f308-4306-831d-bb41c851061d") sample_world)
      as (s & -> & _ & Hid).
    destruct (Hid eq_refl) as (_ & _ & _ & _ & _ & Hdata).
    f_equal. apply Hdata.
    + unfold transport_error. discriminate.
    + intros (r & [= <-] & Hr). cbn in Hr. lia.
    + unfold lacks_payload. intros [H|[H|H]]; discriminate H.
  - destruct (getDetails_settles defaultConfig "course" (VString "c-101")
                (after_request sample_world)) as (s & -> & _ & Hid).
    destruct (Hid eq_refl) as (_ & _ & _ & Hstatus & _).
    f_equal. apply (Hstatus ltac:(unfold transport_error; discriminate)
                      {| statusCode := 500 |} eq_refl).
    cbn. lia.
  - destruct (getDetails_settles defaultConfig "course" (VString "c-101")
                silent_world) as (s & -> & _ & Hid).
    destruct (Hid eq_refl) as (_ & _ & Herr & _).
    f_equal. apply Herr. reflexivity.
  - destruct (getDetails_settles defaultConfig "course" VUndefined silent_world)
      as (s & -> & Hno & _).
    f_equal. by apply Hno.
Defined.

Lemma indexToElastic_partition_witness :
  let msg := VObject (<["timestamp" := VString "2018-01-16T14:09:51.655Z"]> sample_event) in
  prop msg "timestamp" = VString "2018-01-16T14:09:51.655Z"
  /\ exists c,
       writes (trace sample_world (indexToElastic defaultConfig msg)) = [c]
       /\ es_index c = "events-2018-01-16".
Proof.
  intros msg. split; [reflexivity |].
  destruct (indexToElastic_partition defaultConfig msg "2018-01-16T14:09:51.655Z"
              sample_world eq_refl) as (c & Hw & _ & _ & _ & Hex).
  exists c. split; [exact Hw |]. by apply Hex.
Defined.

Lemma hydrateAndIndex_every_stage_witness :
  let tr := trace sample_world (hydrateAndIndex defaultConfig (VObject sample_event)) in
  (lookups tr).*1 = ["attempt"; "course"; "trainee"; "user"]
  /\ (exists c, writes tr = [c])
  /\ outcome sample_world (hydrateAndIndex defaultConfig (VObject sample_event))
     = inr tt.
Proof.
  exact (hydrateAndIndex_every_stage sample_date_time defaultConfig
           (VObject sample_event) sample_world eq_refl sample_event_indexable).
Defined.

(** In [sample_world] the lookup of the course is answered 500: the
    status is printed, and trainee and user are still looked up. *)
Example course_refused :
  (by_stage (trace sample_world
               (hydrateAndIndex defaultConfig (VObject sample_event)))).*1
  = [("attempt", VString "e70a6ecf-f308-4306-831d-bb41c851061d");
     ("course", VString "c-101");
     ("trainee", VString "t-202");
     ("user", VString "471de972-520c-4f44-bd6d-34cc98dd5e6e")]
  /\ logged (settles defaultConfig "course" (VString "c-101")
               (after_request (after_uuid sample_world)))
     = [EvLog (number_of_Z 500)].
Proof. split; by vm_compute. Qed.

Lemma attempt_ids_feed_lookups_witness :
  outcome sample_world
    (getDetails defaultConfig "attempt" (prop (VObject sample_event) "attempt_id"))
  = inr (Fulfilled sample_attempt)
  /\ (by_stage (trace sample_world
                  (hydrateAndIndex defaultConfig (VObject sample_event)))).*1
     = [("attempt", prop (VObject sample_event) "attempt_id");
        ("course", VString "c-101");
        ("trainee", VString "t-202");
        ("user", prop (VObject sample_event) "user_id")]
  /\ exists c,
       writes (trace sample_world
                 (hydrateAndIndex defaultConfig (VObject sample_event))) = [c]
       /\ prop (es_body c) "attempt" = sample_attempt
       /\ prop (es_body c) "course_id" = VString "c-101"
       /\ prop (es_body c) "trainee_id" = VString "t-202".
Proof.
  assert (outcome sample_world
            (getDetails defaultConfig "attempt"
               (prop (VObject sample_event) "attempt_id"))
          = inr (Fulfilled sample_attempt)) as Hout by reflexivity.
  split; [exact Hout |].
  destruct (attempt_ids_feed_lookups sample_date_time defaultConfig
              (VObject sample_event) sample_world sample_attempt
              eq_refl sample_event_indexable Hout ltac:(discriminate))
    as [(r1 & r2 & r3 & r4 & Hst & _) Hdoc].
  split; [by rewrite Hst | exact Hdoc].
Defined.

Lemma no_attempt_skips_course_and_trainee_witness :
  outcome silent_world
    (getDetails defaultConfig "attempt" (prop (VObject sample_event) "attempt_id"))
  = inr (Rejected (cb_error timed_out))
  /\ (exists r1 r4,
        by_stage (trace silent_world
                    (hydrateAndIndex defaultConfig (VObject sample_event)))
        = [("attempt", prop (VObject sample_event) "attempt_id", r1);
           ("course", VUndefined, []);
           ("trainee", VUndefined, []);
           ("user", prop (VObject sample_event) "user_id", r4)])
  /\ (exists c,
        writes (trace silent_world
                  (hydrateAndIndex defaultConfig (VObject sample_event))) = [c]
        /\ (es_body c = VObject sample_event
            \/ exists u, es_body c = VObject (<["user" := u]> sample_event))).
Proof.
  assert (outcome silent_world
            (getDetails defaultConfig "attempt"
               (prop (VObject sample_event) "attempt_id"))
          = inr (Rejected (cb_error timed_out))) as Hout by reflexivity.
  split; [exact Hout |].
  apply (no_attempt_skips_course_and_trainee defaultConfig sample_event
           "2018-01-16T14:09:51.655185082-07:00" silent_world
           (Rejected (cb_error timed_out)) eq_refl eq_refl eq_refl Hout).
  right. by eexists.
Defined.

Lemma transformMessage_filters_witness :
  trace sample_world
    (transformMessage sample_date_time defaultConfig
       (VObject (<["bad_key" := VString "Bad"]> sample_event))) = []
  /\ trace sample_world
       (transformMessage sample_date_time defaultConfig
          (VObject (<["type" := VString "FOO"]> sample_event))) = []
  /\ exists tr,
       trace sample_world
         (transformMessage sample_date_time defaultConfig (VObject sample_event))
       = EvCall "attempt" (prop (VObject sample_event) "attempt_id") :: tr.
Proof.
  destruct (transformMessage_filters sample_date_time defaultConfig
              (VObject sample_event)) as (_ & Hstart & Heighth & Hfoo).
  split; [| split].
  - apply (Heighth sample_event "bad_key" (VString "Bad") eq_refl eq_refl
             sample_event_indexable eq_refl).
  - apply Hfoo.
  - apply (Hstart sample_event_indexable).
Defined.

Lemma isIndexableMessage_pure_witness :
  let m := {| Stepwise.module_config := defaultConfig;
              Stepwise.referent := VObject sample_event |} in
  (forall schema m0,
     reading_validate sample_date_time schema m0
     = Ret (jsonschema.validate sample_date_time (Stepwise.referent m0) schema, m0))
  /\ Stepwise.isIndexableMessage (reading_validate sample_date_time) m = Ret (true, m)
  /\ Stepwise.transformMessage (reading_validate sample_date_time) m
     = hydrateAndIndex defaultConfig (VObject sample_event).
Proof.
  intros m.
  assert (forall schema m0,
            reading_validate sample_date_time schema m0
            = Ret (jsonschema.validate sample_date_time (Stepwise.referent m0) schema,
                   m0)) as Hval by reflexivity.
  split; [exact Hval |].
  destruct (isIndexableMessage_pure sample_date_time
              (reading_validate sample_date_time) m Hval)
    as (Hsteps & _ & _ & _ & Htransform).
  split.
  - rewrite Hsteps. unfold m. cbn [Stepwise.module_config Stepwise.referent].
    by rewrite sample_event_indexable.
  - rewrite Htransform. unfold m, transformMessage.
    cbn [Stepwise.module_config Stepwise.referent].
    by rewrite sample_event_indexable.
Defined.

(** With a [validate] that prints and rewrites the type, validation
    prints and the message comes out changed: what [isIndexableMessage]
    leaves untouched is what [validate] leaves untouched. *)
Example validate_effects_pass_through :
  let m := {| Stepwise.module_config := defaultConfig;
              Stepwise.referent := VObject sample_event |} in
  Stepwise.isIndexableMessage meddling_validate m
  = Log (VString "validated")
      (Ret (false,
            {| Stepwise.module_config := defaultConfig;
               Stepwise.referent :=
                 VObject (<["type" := VString "FOO"]> sample_event) |})).
Proof. by vm_compute. Qed.

Lemma reader_acknowledges_decoded_witness :
  let m1 := {| m_id := "m1"; m_body := sample_payload |} in
  let m2 := {| m_id := "m2"; m_body := "[1,2]" |} in
  let hs := [Delivered m1; Delivered m2; Heard 0; Heard 0; Heard 0] in
  let r := startReader sample_date_time sample_JSON_parse defaultConfig
             sample_world hs in
  sample_JSON_parse (m_body m1) = inr (VObject sample_event)
  /\ sample_JSON_parse (m_body m2) = inr (VArray [number_of_Z 1; number_of_Z 2])
  /\ down r = None
  /\ acks (seen r) = ["m1"; "m2"].
Proof.
  intros m1 m2 hs r.
  split; [reflexivity |]. split; [reflexivity |].
  destruct (reader_acknowledges_decoded sample_date_time sample_JSON_parse
              defaultConfig sample_world hs) as (Hup & Hacks & _).
  - intros msg Hin. unfold hs in Hin.
    repeat (apply elem_of_cons in Hin as [Hin | Hin];
            [first [discriminate Hin | injection Hin as ->; by eexists] |]).
    by apply elem_of_nil in Hin.
  - split; [exact Hup | exact Hacks].
Defined.

(** C1 does not hold of a payload that fails to decode: on the truncated
    text [{], [JSON.parse] raises, the listener raises with it before
    [msg.finish()] and the message is not acknowledged; the exception
    ends the process, and the message delivered next is not acknowledged
    either. *)
Lemma undecodable_payload_not_acknowledged :
  let bad := {| m_id := "m1"; m_body := "{" |} in
  let good := {| m_id := "m2"; m_body := sample_payload |} in
  let r := startReader sample_date_time sample_JSON_parse defaultConfig
             sample_world [Delivered bad; Delivered good] in
  on_message sample_date_time sample_JSON_parse defaultConfig sample_world bad
  = ([], sample_world, inl (SyntaxError "Unexpected end of JSON input"))
  /\ acks (seen r) = []
  /\ down r = Some (SyntaxError "Unexpected end of JSON input").
Proof. repeat split; by vm_compute. Qed.

(** With four records found, one document is written, with the seven
    fields of the event and [attempt], [course], [trainee], [user],
    [course_id], [trainee_id]. *)
Example end_to_end :
  written_keys
    (trace generous_world
       (transformMessage sample_date_time defaultConfig (VObject sample_event)))
  = [dom sample_event
     ∪ list_to_set ["attempt"; "course"; "trainee"; "user"; "course_id"; "trainee_id"]].
Proof. by vm_compute. Qed.

(** * Further facts *)

(** ** The requests of the chain *)

Lemma logs_app tr tr' : logs (tr ++ tr') = logs tr ++ logs tr'.
Proof. apply omap_app. Qed.

Lemma drawn_ids_app tr tr' : drawn_ids (tr ++ tr') = drawn_ids tr ++ drawn_ids tr'.
Proof. apply omap_app. Qed.

Lemma unacked_app tr tr' : unacked (tr ++ tr') = unacked tr ++ unacked tr'.
Proof. apply omap_app. Qed.

#[local] Hint Rewrite logs_app drawn_ids_app unacked_app : events.

Lemma requests_stage cfg type id w s :
  requests (stage_events cfg type id w s) = requests (sent cfg type id w).
Proof. unfold stage_events, sent. by destruct (truthy id), s. Qed.

Lemma logs_stage cfg type id w s :
  logs (stage_events cfg type id w s) = logs (logged s).
Proof. unfold stage_events, sent. by destruct (truthy id), s. Qed.

#[local] Hint Rewrite requests_stage logs_stage : events.

(** The index writer sends no request and writes at most once, whatever
    the message. *)
Lemma indexToElastic_events cfg msg w :
  requests (trace w (indexToElastic cfg msg)) = []
  /\ lookups (trace w (indexToElastic cfg msg)) = []
  /\ (length (writes (trace w (indexToElastic cfg msg))) <= 1)%nat.
Proof.
  unfold trace, indexToElastic.
  destruct (prop msg "timestamp"); cbn; try (repeat split; lia).
  destruct (truthy _); cbn; repeat split; lia.
Qed.

Lemma requests_chain cfg msg w :
  requests (trace w (hydrateAndIndex cfg msg))
  = requests (sent cfg "attempt" (prop msg "attempt_id") w)
    ++ requests (sent cfg "course" (prop (m_attempt cfg msg w) "course_id")
                   (w_attempt msg w))
    ++ requests (sent cfg "trainee" (prop (m_course cfg msg w) "trainee_id")
                   (w_course cfg msg w))
    ++ requests (sent cfg "user" (prop msg "user_id") (w_trainee cfg msg w)).
Proof.
  destruct (nullish msg) eqn:Hn.
  { (* the chain raises at once: nothing is sent *)
    by destruct msg. }
  unfold trace. rewrite run_hydrateAndIndex, m_trainee_user_id by done.
  pose proof (indexToElastic_events cfg (m_user cfg msg w) (w_user cfg msg w))
    as (Hr & _). unfold trace in Hr.
  destruct (run _ (indexToElastic _ _)) as [[tr5 r5] w5]. cbn [fst] in *.
  autorewrite with events. by rewrite Hr, app_nil_r.
Qed.

Lemma sent_chain_request cfg type id w :
  type ∈ ["attempt"; "course"; "trainee"; "user"] ->
  Forall (chain_request cfg) (requests (sent cfg type id w)).
Proof.
  intros Ht. unfold sent. destruct (truthy id) eqn:Hid; cbn; [| constructor].
  constructor; [| constructor].
  unfold chain_request, request_for. cbn. repeat split; try done. eauto.
Qed.

(** X1: every request the chain sends is a JSON-RPC 2.0 document
    posted to the configured Brainspark endpoint with the configured
    timeout; its method is [config.brainspark.method] at one of
    [attempt], [course], [trainee], [user] ([undefined] when the
    configuration maps no method there: the request is sent all the
    same), and its [params.id] is truthy: no request is ever sent for an
    empty or absent identifier. *)
Theorem chain_requests_shape (cfg : config) (msg : value) (w : world) :
  Forall (chain_request cfg) (requests (trace w (hydrateAndIndex cfg msg))).
Proof.
  rewrite requests_chain. rewrite !Forall_app.
  repeat split; apply sent_chain_request; set_solver.
Qed.

(** X2: under the configuration [loadConfiguration] falls back to,
    every request of the chain goes to [http://localhost:8080/] and
    names one of the three remote methods of the defaults: each of the
    four lookups has a method there. *)
Theorem default_requests_have_methods (msg : value) (w : world) :
  Forall (fun o =>
            ro_url o = "http://localhost:8080/"
            /\ ro_timeout o = 10000
            /\ rpc_method (ro_json o)
               ∈ [VString "Participation.GetAttempt";
                  VString "Content.GetCourse";
                  VString "Account.GetUser"])
    (requests (trace w (hydrateAndIndex (loadConfiguration None) msg))).
Proof.
  rewrite requests_chain, !Forall_app.
  repeat split; unfold sent; destruct (truthy _); cbn; constructor;
    try constructor; repeat split; try reflexivity; set_solver.
Qed.

(** X3: a message costs at most four requests and at most one write,
    whatever the message and the world. *)
Theorem chain_cost (cfg : config) (msg : value) (w : world) :
  (length (requests (trace w (hydrateAndIndex cfg msg))) <= 4)%nat
  /\ (length (writes (trace w (hydrateAndIndex cfg msg))) <= 1)%nat.
Proof.
  split.
  - rewrite requests_chain, !length_app. unfold sent.
    repeat destruct (truthy _); cbn; lia.
  - destruct (nullish msg) eqn:Hn.
    { destruct (hydrateAndIndex_nullish cfg msg Hn) as [message ->]. cbn. lia. }
    unfold trace. rewrite run_hydrateAndIndex by done.
    pose proof (indexToElastic_events cfg (m_user cfg msg w) (w_user cfg msg w))
      as (_ & _ & Hw). unfold trace in Hw.
    destruct (run _ (indexToElastic _ _)) as [[tr5 r5] w5]. cbn [fst] in *.
    autorewrite with events. by rewrite !app_nil_l.
Qed.

(** ** Identifiers, order and printing *)

Lemma drawn_ids_stage cfg type id w s :
  drawn_ids (stage_events cfg type id w s)
  = if truthy id then [uuid_v4 w 0%nat] else [].
Proof. unfold stage_events, sent. by destruct (truthy id), s. Qed.

Lemma length_requests_sent cfg type id w :
  length (requests (sent cfg type id w)) = if truthy id then 1%nat else 0%nat.
Proof. unfold sent. by destruct (truthy id). Qed.

Lemma uuid_world_after id w n :
  uuid_v4 (world_after id w) n = uuid_v4 w (if truthy id then S n else n).
Proof. unfold world_after. by destruct (truthy id). Qed.

(** X4: on a message with a string timestamp, the correlation ids of
    the requests, in the order sent, followed by the id of the document,
    are the successive draws of [uuid.v4()]: each is drawn afresh, none
    comes from the message, and they are pairwise distinct as long as
    the draws are. *)
Theorem chain_ids_fresh (cfg : config) (msg : value) (timestamp : string) (w : world) :
  prop msg "timestamp" = VString timestamp ->
  let tr := trace w (hydrateAndIndex cfg msg) in
  drawn_ids tr = uuid_v4 w <$> seq 0 (S (length (requests tr)))
  /\ ((forall i j, uuid_v4 w i = uuid_v4 w j -> i = j) -> NoDup (drawn_ids tr)).
Proof.
  intros Hts tr.
  assert (drawn_ids tr = uuid_v4 w <$> seq 0 (S (length (requests tr)))) as Hids.
  { unfold tr. rewrite requests_chain, !length_app, !length_requests_sent.
    unfold trace. rewrite (run_chain _ _ _ _ Hts). cbn [fst].
    rewrite !drawn_ids_app, !drawn_ids_stage, m_trainee_user_id.
    assert (forall c log, drawn_ids (EvCreate c :: (if truthy (stored (w_user cfg msg w) 0%nat c)
                                                    then [EvLog log] else []))
                          = [es_id c]) as Hc.
    { intros c log. by destruct (truthy _). }
    rewrite Hc. cbn [document es_id].
    unfold w_user, w_trainee, w_course, w_attempt.
    rewrite !uuid_world_after, m_trainee_user_id.
    by destruct (truthy (prop msg "attempt_id")),
      (truthy (prop (m_attempt cfg msg w) "course_id")),
      (truthy (prop (m_course cfg msg w) "trainee_id")),
      (truthy (prop msg "user_id")). }
  split; [exact Hids |].
  intros Hinj. rewrite Hids. apply NoDup_fmap_2; [| apply NoDup_seq].
  intros i j. apply Hinj.
Qed.

(** X5: on a message with a string timestamp, the write comes after
    the four lookups: everything before it is lookups, requests and
    printed failures, with no write among them, and after it nothing is
    looked up or sent. *)
Theorem write_comes_last (cfg : config) (msg : value) (timestamp : string) (w : world) :
  prop msg "timestamp" = VString timestamp ->
  exists before c after,
    trace w (hydrateAndIndex cfg msg) = before ++ EvCreate c :: after
    /\ (lookups before).*1 = ["attempt"; "course"; "trainee"; "user"]
    /\ writes before = []
    /\ lookups after = [] /\ requests after = [] /\ writes after = [].
Proof.
  intros Hts. unfold trace. rewrite (run_chain _ _ _ _ Hts). cbn [fst].
  eexists _, _, _. split.
  { rewrite !app_assoc. reflexivity. }
  autorewrite with events. cbn.
  repeat split; by destruct (truthy _).
Qed.

Lemma stored_world_after id w : stored (world_after id w) = stored w.
Proof. unfold world_after. by destruct (truthy id). Qed.

Lemma always_found_after id w : always_found w -> always_found (world_after id w).
Proof.
  unfold always_found, world_after. intros H n o.
  destruct (truthy id); [apply (H (S n)) | apply H].
Qed.

Lemma always_refused_after id w : always_refused w -> always_refused (world_after id w).
Proof.
  unfold always_refused, world_after. intros H n o.
  destruct (truthy id); [apply (H (S n)) | apply H].
Qed.

Lemma settles_found cfg type id w :
  always_found w -> exists r, settles cfg type id w = Fulfilled r.
Proof.
  intros H. unfold settles. destruct (truthy id); [apply H | eauto].
Qed.

(** In a world that always refuses, a lookup leaves the message as it
    was, and prints once for each request it has sent. *)
Lemma settles_refused cfg type id w m upd :
  always_refused w ->
  merged m upd (settles cfg type id w) = m
  /\ length (logs (logged (settles cfg type id w)))
     = length (requests (sent cfg type id w)).
Proof.
  intros H. unfold settles, sent. destruct (truthy id); [| done].
  by destruct (H 0%nat (request_for cfg type id (uuid_v4 w 0%nat))) as [err ->].
Qed.

(** X6: when every request is answered without failure and the store
    accepts the document, the chain prints nothing. *)
Theorem no_failure_no_log (cfg : config) (msg : value) (timestamp : string) (w : world) :
  prop msg "timestamp" = VString timestamp ->
  always_found w ->
  store_accepts w ->
  logs (trace w (hydrateAndIndex cfg msg)) = [].
Proof.
  intros Hts Hw Hst. unfold trace. rewrite (run_chain _ _ _ _ Hts). cbn [fst].
  assert (always_found (w_attempt msg w)) as Hw1 by by apply always_found_after.
  assert (always_found (w_course cfg msg w)) as Hw2 by by apply always_found_after.
  assert (always_found (w_trainee cfg msg w)) as Hw3 by by apply always_found_after.
  destruct (settles_found cfg "attempt" (prop msg "attempt_id") w Hw) as [r1 ->].
  destruct (settles_found cfg "course" (prop (m_attempt cfg msg w) "course_id")
              _ Hw1) as [r2 ->].
  destruct (settles_found cfg "trainee" (prop (m_course cfg msg w) "trainee_id")
              _ Hw2) as [r3 ->].
  destruct (settles_found cfg "user" (prop (m_trainee cfg msg w) "user_id")
              _ Hw3) as [r4 ->].
  autorewrite with events. cbn [logged logs omap app].
  unfold w_user. rewrite stored_world_after. unfold w_trainee.
  rewrite stored_world_after. unfold w_course. rewrite stored_world_after.
  unfold w_attempt. rewrite stored_world_after.
  by rewrite Hst.
Qed.

(** X7: when the lookup service refuses or fails every request, the
    message is still written, exactly as it came, and each request sent
    is printed once (the store accepting the document). *)
Theorem service_down_writes_message (cfg : config) (msg : value) (timestamp : string)
    (w : world) :
  prop msg "timestamp" = VString timestamp ->
  always_refused w ->
  store_accepts w ->
  let tr := trace w (hydrateAndIndex cfg msg) in
  (exists c, writes tr = [c] /\ es_body c = msg)
  /\ length (logs tr) = length (requests tr).
Proof.
  intros Hts Hw Hst tr.
  assert (always_refused (w_attempt msg w)) as Hw1 by by apply always_refused_after.
  assert (always_refused (w_course cfg msg w)) as Hw2 by by apply always_refused_after.
  assert (always_refused (w_trainee cfg msg w)) as Hw3 by by apply always_refused_after.
  assert (m_attempt cfg msg w = msg) as Hm1.
  { unfold m_attempt. by apply settles_refused. }
  assert (m_course cfg msg w = msg) as Hm2.
  { unfold m_course. cbv zeta. rewrite Hm1. by apply settles_refused. }
  assert (m_trainee cfg msg w = msg) as Hm3.
  { unfold m_trainee. cbv zeta. rewrite Hm2. by apply settles_refused. }
  assert (m_user cfg msg w = msg) as Hm4.
  { unfold m_user. cbv zeta. rewrite Hm3. by apply settles_refused. }
  unfold tr. split.
  - rewrite (writes_chain _ _ _ _ Hts), Hm4. eauto.
  - rewrite requests_chain. unfold trace. rewrite (run_chain _ _ _ _ Hts).
    cbn [fst]. autorewrite with events. rewrite !length_app.
    rewrite m_trainee_user_id.
    rewrite (proj2 (settles_refused cfg "attempt" _ w msg id Hw)).
    rewrite (proj2 (settles_refused cfg "course" _ _ msg id Hw1)).
    rewrite (proj2 (settles_refused cfg "trainee" _ _ msg id Hw2)).
    rewrite (proj2 (settles_refused cfg "user" _ _ msg id Hw3)).
    cbn [logs omap].
    unfold w_user. rewrite stored_world_after. unfold w_trainee.
    rewrite stored_world_after. unfold w_course. rewrite stored_world_after.
    unfold w_attempt. rewrite stored_world_after.
    rewrite Hst. cbn. lia.
Qed.

(** ** What the chain leaves of the message *)

Lemma extends_refl K o : extends K (VObject o) (VObject o).
Proof. exists o, o. split; [done |]. split; [done |]. split; [done |]. split; [set_solver | done]. Qed.

Lemma extends_set_prop K m m' k x :
  extends K m m' -> k ∈ K -> extends K m (set_prop m' k x).
Proof.
  intros (o & o' & -> & -> & Hsub & Hsup & Hsame) Hk.
  exists o, (<[k := x]> o'). cbn [set_prop]. repeat split.
  - rewrite dom_insert_L. intros k' Hin. apply elem_of_union. right. by apply Hsub.
  - rewrite dom_insert_L. intros k' [->%elem_of_singleton | Hin]%elem_of_union.
    + apply elem_of_union. by right.
    + by apply Hsup.
  - intros k' Hk'. rewrite lookup_insert_ne; [by apply Hsame |].
    intros ->. by apply Hk'.
Qed.

Lemma extends_merged K m m' k s :
  extends K m m' -> k ∈ K -> extends K m (merged m' (set_prop m' k) s).
Proof.
  intros He Hk. destruct s as [result|err]; cbn [merged]; [| done].
  destruct (truthy result); [by apply extends_set_prop | done].
Qed.

Lemma extends_merged_attempt K m m' s :
  extends K m m' -> "attempt" ∈ K -> "course_id" ∈ K -> "trainee_id" ∈ K ->
  extends K m (merged m' (with_attempt m') s).
Proof.
  intros He Ha Hc Ht. destruct s as [result|err]; cbn [merged]; [| done].
  destruct (truthy result); [| done]. unfold with_attempt.
  by repeat apply extends_set_prop.
Qed.

Lemma m_user_extends cfg o w :
  extends enrichment_keys (VObject o) (m_user cfg (VObject o) w).
Proof.
  unfold m_user, m_trainee, m_course, m_attempt. cbv zeta.
  repeat (apply extends_merged; [| by vm_compute]).
  apply extends_merged_attempt; try by vm_compute.
  apply extends_refl.
Qed.

(** X8: the document written for a message holds every property the
    message came with, with the value it came with, whatever the
    lookups give: the chain assigns [attempt], [course_id],
    [trainee_id], [course], [trainee] and [user] and touches nothing
    else; it removes no property. *)
Theorem chain_keeps_message (cfg : config) (o : gmap string value)
    (timestamp : string) (w : world) :
  o !! "timestamp" = Some (VString timestamp) ->
  exists c o',
    writes (trace w (hydrateAndIndex cfg (VObject o))) = [c]
    /\ es_body c = VObject o'
    /\ dom o ⊆ dom o'
    /\ dom o' ⊆ dom o ∪ enrichment_keys
    /\ forall k, k ∉ enrichment_keys -> o' !! k = o !! k.
Proof.
  intros Hts.
  assert (prop (VObject o) "timestamp" = VString timestamp) as Hp.
  { simpl. by rewrite Hts. }
  destruct (m_user_extends cfg o w) as (o0 & o' & [= <-] & Hm & Hsub & Hsup & Hsame).
  exists (document cfg (m_user cfg (VObject o) w) timestamp
            (uuid_v4 (w_user cfg (VObject o) w) 0%nat)), o'.
  split; [by apply writes_chain |]. by repeat split.
Qed.

(** X9: [hydrateAndIndex] counts on validation for the timestamp: on
    an object whose [timestamp] is not a string (or is not there), the
    four lookups are made all the same, then [msg.timestamp.split]
    raises a TypeError in the last reaction and nothing is written. *)
Theorem chain_needs_timestamp (cfg : config) (o : gmap string value) (w : world) :
  (forall timestamp, o !! "timestamp" <> Some (VString timestamp)) ->
  let tr := trace w (hydrateAndIndex cfg (VObject o)) in
  (lookups tr).*1 = ["attempt"; "course"; "trainee"; "user"]
  /\ writes tr = []
  /\ exists message,
       outcome w (hydrateAndIndex cfg (VObject o)) = inl (TypeError message).
Proof.
  intros Hts tr. unfold tr, outcome, trace. set (msg := VObject o).
  rewrite run_hydrateAndIndex by done.
  assert (run (w_user cfg msg w) (indexToElastic cfg (m_user cfg msg w))
          = ([], inl (TypeError "msg.timestamp.split is not a function"),
             w_user cfg msg w)) as ->.
  { unfold indexToElastic. rewrite m_user_keeps by done.
    unfold msg. cbn [prop].
    destruct (o !! "timestamp") as [[]|] eqn:Hp; try done. by destruct (Hts s). }
  cbn [fst snd]. autorewrite with events. cbn. repeat split. eauto.
Qed.

(** ** The index of any timestamp *)

Lemma split_head_spec (sep : ascii) (s : string) :
  exists rest,
    s = split_head sep s +:+ rest
    /\ (forall c, c ∈ String.list_ascii_of_string (split_head sep s) -> c <> sep)
    /\ (rest = "" \/ exists rest', rest = String sep rest').
Proof.
  induction s as [|c s IH]; simpl.
  - exists "". repeat split; [by intros c ?%elem_of_nil | by left].
  - destruct (Ascii.eqb_spec c sep) as [->|Hne].
    + exists (String sep s). repeat split; [by intros c ?%elem_of_nil | eauto].
    + destruct IH as (rest & Hs & Hno & Hrest). exists rest. simpl.
      split.
      { change (String c s = String c (split_head sep s +:+ rest)).
        by rewrite <- Hs. }
      split; [| done].
      intros c' [->|Hc']%elem_of_cons; [done | by apply Hno].
Qed.

Lemma string_app_nil_r (s : string) : s +:+ "" = s.
Proof.
  induction s as [|c s IH]; [done |].
  change (String c (s +:+ "") = String c s). by rewrite IH.
Qed.

Lemma elem_of_string_app_cons (s : string) (c : ascii) (rest : string) :
  c ∈ String.list_ascii_of_string (s +:+ String c rest).
Proof.
  induction s as [|c' s IH].
  - by left.
  - change (c ∈ c' :: String.list_ascii_of_string (s +:+ String c rest)).
    by right.
Qed.

(** X10: whatever string the timestamp is, the index of the document
    is the prefix followed by the longest beginning of the timestamp
    that has no ['T']: the timestamp is that beginning followed by
    nothing or by a text that starts with ['T'].  A timestamp with no
    ['T'] at all (a date-time written with [t] or a blank) goes whole
    into the name of the index. *)
Theorem index_of_any_timestamp (cfg : config) (msg : value) (timestamp : string)
    (w : world) :
  prop msg "timestamp" = VString timestamp ->
  exists c date rest,
    writes (trace w (indexToElastic cfg msg)) = [c]
    /\ es_index c = elastic_indexprefix cfg +:+ date
    /\ timestamp = date +:+ rest
    /\ (forall ch, ch ∈ String.list_ascii_of_string date -> ch <> "T"%char)
    /\ (rest = "" \/ exists rest', rest = String "T" rest')
    /\ ((forall ch, ch ∈ String.list_ascii_of_string timestamp -> ch <> "T"%char) ->
        date = timestamp).
Proof.
  intros Hts.
  destruct (split_head_spec "T" timestamp) as (rest & Hs & Hno & Hrest).
  exists (document cfg msg timestamp (uuid_v4 w 0%nat)),
    (split_head "T" timestamp), rest.
  unfold trace. rewrite (run_indexToElastic _ _ _ _ Hts). cbn [fst].
  split.
  { cbn [writes omap]. by destruct (truthy _). }
  split; [done |]. split; [done |]. split; [done |]. split; [done |].
  intros HnoT. destruct Hrest as [-> | [rest' ->]].
  - by rewrite string_app_nil_r in Hs.
  - exfalso. apply (HnoT "T"%char); [| done]. rewrite Hs.
    apply elem_of_string_app_cons.
Qed.

(** ** What a lookup can give *)

(** X11: a lookup never resolves to a falsy value other than [null]: a
    reply whose [result.data] is [0], [""], [false] or [null] counts as
    no record, so a record attached to the message is always truthy. *)
Theorem getDetails_null_or_truthy (cfg : config) (type : string) (id : value)
    (w : world) (v : value) :
  outcome w (getDetails cfg type id) = inr (Fulfilled v) ->
  v = VNull \/ truthy v = true.
Proof.
  rewrite outcome_getDetails. intros [= Hs]. by apply settles_fulfilled in Hs.
Qed.

(** ** The key count and the schema together *)

Lemma indexable_keys_le dt cfg msg :
  isIndexableMessage dt cfg msg = true ->
  (keys_length msg <= msg_keycount cfg)%Z.
Proof.
  unfold isIndexableMessage.
  destruct (_ || _); [discriminate |].
  destruct (Z.gtb_spec (keys_length msg) (msg_keycount cfg)); [discriminate | done].
Qed.

Lemma indexable_not_FOO dt cfg msg :
  isIndexableMessage dt cfg msg = true ->
  strict_eq_string (prop msg "type") "FOO" = false.
Proof.
  unfold isIndexableMessage.
  destruct (_ || _); [discriminate |].
  destruct (_ >? _)%Z; [discriminate |].
  destruct (negb _); [discriminate |].
  by destruct (strict_eq_string _ _).
Qed.

Lemma indexable_object dt cfg o :
  (Z.of_nat (size o) <= msg_keycount cfg)%Z ->
  jsonschema.validate dt (VObject o) (msg_schema cfg) = true ->
  strict_eq_string (prop (VObject o) "type") "FOO" = false ->
  isIndexableMessage dt cfg (VObject o) = true.
Proof.
  intros Hk Hv Ht. unfold isIndexableMessage. cbn [typeof is_null keys_length].
  change (negb (String.eqb "object" "object") || false) with false. cbn match.
  destruct (Z.gtb_spec (Z.of_nat (size o)) (msg_keycount cfg)); [lia |].
  by rewrite Hv, Ht.
Qed.

(** X12: under the default key count and schema, a message that
    passes has the seven fields of the schema and no other property: in
    particular it comes with no [course_id], [trainee_id], [attempt],
    [course], [trainee] or [user] of its own. *)
Theorem accepted_keys_exact (date_time : string -> bool) (cfg : config)
    (o : gmap string value) :
  msg_keycount cfg = 7 ->
  msg_schema cfg = messageSchema ->
  isIndexableMessage date_time cfg (VObject o) = true ->
  dom o = required_keys
  /\ forall k, k ∈ enrichment_keys -> o !! k = None.
Proof.
  intros Hk Hs Hv.
  pose proof (indexable_has_required date_time cfg o Hs Hv) as Hsub.
  pose proof (indexable_keys_le date_time cfg (VObject o) Hv) as Hle.
  rewrite Hk in Hle. cbn [keys_length] in Hle.
  assert (dom o = required_keys) as Hdom.
  { symmetry. apply set_subseteq_size_eq; [done |].
    rewrite size_dom, size_required_keys. lia. }
  split; [done |].
  intros k Hin. apply not_elem_of_dom. rewrite Hdom.
  revert Hin. unfold enrichment_keys, required_keys. cbn.
  rewrite !elem_of_union, !elem_of_singleton.
  intros [->|[->|[->|[->|[->|[->|[]%elem_of_empty]]]]]] Hin;
    destruct Hin as [?|[?|[?|[?|[?|[?|[?|[]%elem_of_empty]]]]]]]; discriminate.
Qed.

(** X13: with the default schema, a key count below 7 rejects every
    message: the seven required fields are already more keys than it
    lets through. *)
Theorem keycount_below_schema_rejects_all (date_time : string -> bool)
    (cfg : config) (msg : value) :
  msg_schema cfg = messageSchema ->
  (msg_keycount cfg < 7)%Z ->
  isIndexableMessage date_time cfg msg = false.
Proof.
  intros Hs Hk. destruct (isIndexableMessage date_time cfg msg) eqn:Hv; [| done].
  exfalso.
  destruct (indexable_timestamp date_time cfg msg Hs Hv) as (o & ts & -> & _).
  pose proof (indexable_has_required date_time cfg o Hs Hv) as Hsub.
  apply subseteq_size in Hsub. rewrite size_required_keys, size_dom in Hsub.
  pose proof (indexable_keys_le date_time cfg (VObject o) Hv) as Hle.
  cbn [keys_length] in Hle. lia.
Qed.

(** X14: the schema alone lets unknown properties through: what keeps
    them out is the key count.  Under the default schema and a key
    count that leaves room, a message that passes still passes with one
    more property, whatever its name and value. *)
Theorem extra_key_passes_schema (date_time : string -> bool) (cfg : config)
    (o : gmap string value) (k : string) (v : value) :
  msg_schema cfg = messageSchema ->
  isIndexableMessage date_time cfg (VObject o) = true ->
  o !! k = None ->
  (Z.of_nat (size o) < msg_keycount cfg)%Z ->
  isIndexableMessage date_time cfg (VObject (<[k := v]> o)) = true.
Proof.
  intros Hs Hv Hnone Hroom.
  assert (forall key x, o !! key = Some x -> <[k := v]> o !! key = Some x) as Hkeep.
  { intros key x Hx. rewrite lookup_insert_ne; [done |]. congruence. }
  apply indexable_object.
  - rewrite map_size_insert_None by done. lia.
  - pose proof (indexable_validates date_time cfg _ Hv) as Hval.
    rewrite Hs in *. apply validate_messageSchema.
    apply validate_messageSchema in Hval as (o' & [= <-] & Hf).
    exists (<[k := v]> o). split; [done |].
    destruct Hf as ([? Hid] & [? Hat] & (? & Hpr & ?) & (? & Hsc & ?)
                    & (? & Hts & ?) & [? Hty] & [? Hus]).
    unfold string_field, number_field, date_time_field.
    repeat split; eauto 6.
  - pose proof (indexable_not_FOO date_time cfg _ Hv) as Hfoo.
    apply strict_eq_string_prop. apply strict_eq_string_prop in Hfoo.
    destruct (o !! "type") as [x|] eqn:Hx.
    + by rewrite (Hkeep _ _ Hx).
    + rewrite lookup_insert_ne; [by rewrite Hx |]. intros ->.
      apply indexable_validates in Hv. rewrite Hs in Hv.
      apply validate_messageSchema in Hv as (o' & [= <-] & Hf).
      destruct Hf as (_ & _ & _ & _ & _ & [? Hty] & _). congruence.
Qed.

(** ** The chain heard turn by turn *)

Lemma waits_le_mono {A : Type} (n m : nat) (p : prog A) :
  waits_le n p -> (n <= m)%nat -> waits_le m p.
Proof.
  intros H. revert m. induction H as
    [n a|n e|n t i k _ IH|n k _ IH|n o k _ IH|n c k _ IH|n v k _ IH|n k _ IH];
    intros m Hle; try (constructor; auto; fail).
  - destruct m as [|m]; [lia |]. constructor. intros a. apply IH. lia.
  - destruct m as [|m]; [lia |]. constructor. intros a. apply IH. lia.
Qed.

Lemma waits_le_bind {A B : Type} (n m : nat) (p : prog A) (f : A -> prog B) :
  waits_le n p -> (forall a, waits_le m (f a)) -> waits_le (n + m) (bind p f).
Proof.
  intros H Hf. induction H as
    [n a|n e|n t i k _ IH|n k _ IH|n o k _ IH|n c k _ IH|n v k _ IH|n k _ IH];
    cbn [bind]; try (constructor; auto; fail).
  apply (waits_le_mono m); [done | lia].
Qed.

Lemma waits_le_stage cfg type id m upd : waits_le 1 (stage cfg type id m upd).
Proof.
  unfold stage, then_. apply (waits_le_bind 1 0).
  - unfold getDetails. constructor. destruct (truthy id); cbn [negb];
      repeat constructor.
  - intros [result|err]; constructor; [destruct (truthy result) |];
      repeat constructor.
Qed.

Lemma waits_le_indexToElastic cfg msg : waits_le 1 (indexToElastic cfg msg).
Proof.
  unfold indexToElastic. destruct (prop msg "timestamp"); try constructor.
  intros u. constructor. intros e. destruct (truthy e); repeat constructor.
Qed.

(** The chain waits for five callbacks at most: four replies and the
    store's. *)
Lemma waits_le_hydrateAndIndex cfg msg : waits_le 5 (hydrateAndIndex cfg msg).
Proof.
  destruct (nullish msg) eqn:Hn.
  { destruct (hydrateAndIndex_nullish cfg msg Hn) as [message ->]. constructor. }
  rewrite hydrateAndIndex_stages by done.
  apply (waits_le_bind 1 4); [apply waits_le_stage |]. intros m1. constructor.
  apply (waits_le_bind 1 3); [apply waits_le_stage |]. intros m2. constructor.
  apply (waits_le_bind 1 2); [apply waits_le_stage |]. intros m3. constructor.
  apply (waits_le_bind 1 1); [apply waits_le_stage |]. intros m4. constructor.
  apply waits_le_indexToElastic.
Qed.

Lemma pending_le_advance {A : Type} (jobs : bool) (n : nat) (p : prog A) (w : world) :
  waits_le n p -> pending_le n (advance jobs w p).2.
Proof.
  intros H. revert w. induction H as
    [n a|n e|n t i k _ IH|n k _ IH|n o k Hk IH|n c k Hk IH|n v k _ IH|n k Hk IH];
    intros w; cbn [advance].
  - done.
  - done.
  - specialize (IH w). by destruct (advance jobs w k) as [[tr w'] q].
  - apply IH.
  - cbn. eauto.
  - cbn. eauto.
  - specialize (IH w). by destruct (advance jobs w k) as [[tr w'] q].
  - destruct jobs; [apply IH | done].
Qed.

(** With the queued jobs run, a program stops on a pending call or at
    its end. *)
Lemma advance_jobs_not_deferred {A : Type} (p : prog A) (w : world) k :
  (advance true w p).2 <> Deferred k.
Proof.
  revert w. induction p as [a|e|t i p IH|p IH|o p IH|c p IH|v p IH|p IH];
    intros w; cbn [advance]; try done; try apply IH.
  - specialize (IH w). by destruct (advance true w p) as [[tr w'] q].
  - specialize (IH w). by destruct (advance true w p) as [[tr w'] q].
Qed.

(** The jobs run when the synchronous code has returned. *)
Lemma advance_jobs {A : Type} (p : prog A) (w : world) :
  advance true w p =
  let '(tr1, w1, q1) := advance false w p in
  match q1 with
  | Deferred k => let '(tr2, w2, q2) := advance true w1 k in (tr1 ++ tr2, w2, q2)
  | _ => (tr1, w1, q1)
  end.
Proof.
  revert w. induction p as [a|e|t i p IH|p IH|o p IH|c p IH|v p IH|p IH];
    intros w; cbn [advance]; try done; try apply IH.
  - rewrite IH. destruct (advance false w p) as [[tr1 w1] q1].
    destruct q1 as [r|k|o k|c k]; try done.
    by destruct (advance true w1 k) as [[tr2 w2] q2].
  - rewrite IH. destruct (advance false w p) as [[tr1 w1] q1].
    destruct q1 as [r|k|o k|c k]; try done.
    by destruct (advance true w1 k) as [[tr2 w2] q2].
  - cbn [app]. by destruct (advance true w p) as [[tr2 w2] q2].
Qed.

Lemma unacked_advance {A : Type} (jobs : bool) (w : world) (p : prog A) :
  unacked (advance jobs w p).1.1 = (advance jobs w p).1.1.
Proof.
  revert w. induction p as [a|e|t i p IH|p IH|o p IH|c p IH|v p IH|p IH];
    intros w; cbn [advance]; try done; try apply IH.
  - specialize (IH w). destruct (advance jobs w p) as [[tr w'] q].
    cbn in *. by rewrite IH.
  - specialize (IH w). destruct (advance jobs w p) as [[tr w'] q].
    cbn in *. by rewrite IH.
  - destruct jobs; [apply IH | done].
Qed.

Lemma unacked_hear {A : Type} (w : world) (q : paused A) :
  unacked (hear w q).1.1 = (hear w q).1.1.
Proof. destruct q; cbn [hear]; try done; apply unacked_advance. Qed.

Lemma unacked_hears {A : Type} (n : nat) (w : world) (q : paused A) :
  unacked (hears n w q).1.1 = (hears n w q).1.1.
Proof.
  revert w q. induction n as [|n IH]; intros w q; cbn [hears]; [done |].
  pose proof (unacked_hear w q) as Hh.
  destruct (hear w q) as [[tr w'] q']. specialize (IH w' q').
  destruct (hears n w' q') as [[tr' w''] q'']. cbn [fst snd] in *.
  by rewrite unacked_app, Hh, IH.
Qed.

(** Heard callback by callback, a paused program comes to the end that
    [resume] gives it, leaving the same events and the same world. *)
Lemma hears_resume {A : Type} (n : nat) (w : world) (q : paused A) :
  pending_le n q ->
  (forall k, q <> Deferred k) ->
  exists tr r w', hears n w q = (tr, w', Finished r) /\ resume w q = (tr, r, w').
Proof.
  revert w q. induction n as [|n IH]; intros w q Hp Hnd.
  - destruct q as [r|k|o k|c k]; cbn in Hp.
    + by eexists _, _, _.
    + by destruct (Hnd k).
    + by destruct Hp as (n' & ? & _).
    + by destruct Hp as (n' & ? & _).
  - destruct q as [r|k|o k|c k]; cbn [hears hear].
    + destruct (IH w (Finished r) I Hnd) as (tr & r' & w' & -> & Hr).
      cbn [resume] in Hr. simplify_eq. by eexists _, _, _.
    + by destruct (Hnd k).
    + destruct Hp as (n' & [= <-] & Hk). cbn [resume].
      rewrite (run_advance true).
      pose proof (pending_le_advance true n _ (after_request w) (Hk (answer w 0%nat o)))
        as Hp1.
      pose proof (advance_jobs_not_deferred (k (answer w 0%nat o)) (after_request w))
        as Hnd1.
      destruct (advance true _ _) as [[tr1 w1] q1]. cbn [snd] in Hp1, Hnd1.
      destruct (IH w1 q1 Hp1) as (tr & r & w' & -> & ->); [by intros k' |].
      by eexists _, _, _.
    + destruct Hp as (n' & [= <-] & Hk). cbn [resume].
      rewrite (run_advance true).
      pose proof (pending_le_advance true n _ (after_create w) (Hk (stored w 0%nat c)))
        as Hp1.
      pose proof (advance_jobs_not_deferred (k (stored w 0%nat c)) (after_create w))
        as Hnd1.
      destruct (advance true _ _) as [[tr1 w1] q1]. cbn [snd] in Hp1, Hnd1.
      destruct (IH w1 q1 Hp1) as (tr & r & w' & -> & ->); [by intros k' |].
      by eexists _, _, _.
Qed.

Section ChainInReader.

Variable date_time : string -> bool.

Variable JSON_parse : string -> exn + value.

(** The listener leaves the events of the chain up to its first wait,
    and the acknowledgment among them. *)
Lemma on_message_advance cfg w msg decoded :
  JSON_parse (m_body msg) = inr decoded ->
  let p := transformMessage date_time cfg decoded in
  exists tr,
    on_message date_time JSON_parse cfg w msg
    = (tr, (advance true w p).1.2, inr (advance true w p).2)
    /\ unacked tr = (advance true w p).1.1.
Proof.
  intros Hd p. unfold on_message. rewrite Hd. fold p.
  rewrite (advance_jobs p).
  pose proof (unacked_advance false w p) as Hu.
  assert (forall e, (advance false w p).2 <> Finished (inl e)) as Hne.
  { intros e. unfold p, transformMessage.
    destruct (isIndexableMessage date_time cfg decoded) eqn:Hv; [| done].
    destruct (advance_hydrateAndIndex cfg decoded w
                (indexable_not_nullish date_time cfg decoded Hv))
      as (tr1 & w1 & q1 & -> & Hq).
    cbn [snd]. by destruct Hq as [(o & k & ->) | (k & ->)]. }
  destruct (advance false w p) as [[tr1 w1] q1]. cbn [fst snd] in Hu, Hne.
  destruct q1 as [[e|[]]|k|o k|c k].
  - by destruct (Hne e).
  - eexists. split; [reflexivity |]. cbn [fst snd].
    by rewrite unacked_app, Hu, app_nil_r.
  - pose proof (unacked_advance true w1 k) as Hu2.
    destruct (advance true w1 k) as [[tr2 w2] q2]. cbn [fst snd] in Hu2 |- *.
    eexists. split; [reflexivity |].
    rewrite unacked_app, Hu.
    change (unacked (EvFinish (m_id msg) :: tr2)) with (unacked tr2).
    by rewrite Hu2.
  - eexists. split; [reflexivity |]. cbn [fst snd].
    by rewrite unacked_app, Hu, app_nil_r.
  - eexists. split; [reflexivity |]. cbn [fst snd].
    by rewrite unacked_app, Hu, app_nil_r.
Qed.

(** Turns of the one chain in flight. *)
Lemma steps_heard cfg n r q :
  down r = None ->
  inflight r = [q] ->
  fold_left (step date_time JSON_parse cfg) (replicate n (Heard 0%nat)) r
  = {| seen := seen r ++ (hears n (env r) q).1.1;
       env := (hears n (env r) q).1.2;
       inflight := [(hears n (env r) q).2];
       down := None |}.
Proof.
  revert r q. induction n as [|n IH]; intros r q Hup Hq.
  - cbn. rewrite app_nil_r. destruct r; cbn in *. by subst.
  - cbn [replicate fold_left hears].
    assert (step date_time JSON_parse cfg r (Heard 0%nat)
            = {| seen := seen r ++ (hear (env r) q).1.1;
                 env := (hear (env r) q).1.2;
                 inflight := [(hear (env r) q).2];
                 down := None |}) as ->.
    { unfold step. rewrite Hup, Hq. cbn [lookup list_lookup].
      by destruct (hear (env r) q) as [[tr w'] q']. }
    rewrite (IH _ (hear (env r) q).2) by done. cbn [seen env].
    destruct (hear (env r) q) as [[tr w'] q']. cbn [fst snd].
    destruct (hears n w' q') as [[tr' w''] q'']. cbn [fst snd].
    by rewrite app_assoc.
Qed.

(** X15: a message delivered to the reader and heard turn by turn
    (the acknowledgment in the first turn, then one callback a turn)
    leaves, apart from the acknowledgment, the events of
    [transformMessage] in the same order, ends as it does and leaves
    the same world; five callbacks are enough for the chain to be
    over. *)
Theorem reader_runs_chain (cfg : config) (w : world) (msg : message)
    (decoded : value) (n : nat) :
  JSON_parse (m_body msg) = inr decoded ->
  (5 <= n)%nat ->
  let p := transformMessage date_time cfg decoded in
  let r := startReader date_time JSON_parse cfg w
             (Delivered msg :: replicate n (Heard 0%nat)) in
  down r = None
  /\ unacked (seen r) = trace w p
  /\ inflight r = [Finished (outcome w p)]
  /\ env r = (run w p).2.
Proof.
  intros Hd Hn p r. unfold r, startReader. cbn [fold_left].
  destruct (on_message_advance cfg w msg decoded Hd) as (tr0 & Hon & Hu0).
  fold p in Hon, Hu0.
  assert (step date_time JSON_parse cfg
            {| seen := []; env := w; inflight := []; down := None |}
            (Delivered msg)
          = {| seen := tr0; env := (advance true w p).1.2;
               inflight := [(advance true w p).2]; down := None |}) as ->.
  { unfold step. cbn [down env seen inflight]. by rewrite Hon. }
  rewrite (steps_heard cfg n _ (advance true w p).2) by done.
  cbn [seen env inflight down].
  assert (waits_le n p) as Hw.
  { apply (waits_le_mono 5); [| done]. unfold p, transformMessage.
    destruct (isIndexableMessage date_time cfg decoded);
      [apply waits_le_hydrateAndIndex | constructor]. }
  pose proof (pending_le_advance true n p w Hw) as Hp.
  pose proof (advance_jobs_not_deferred p w) as Hnd.
  pose proof (unacked_hears n (advance true w p).1.2 (advance true w p).2) as Hu.
  pose proof (run_advance true p w) as Hrun.
  destruct (advance true w p) as [[tr1 w1] q1]. cbn [fst snd] in *.
  destruct (hears_resume n w1 q1 Hp) as (tr & res & w' & Hh & Hr);
    [by intros k |].
  rewrite Hh in Hu |- *. rewrite Hr in Hrun. cbn [fst snd] in *.
  unfold trace, outcome. rewrite Hrun. cbn [fst snd].
  split; [done |]. split; [| done].
  by rewrite unacked_app, Hu0, Hu.
Qed.

Lemma steps_rejected cfg hs r :
  (forall msg, Delivered msg ∈ hs ->
     exists decoded, JSON_parse (m_body msg) = inr decoded
       /\ isIndexableMessage date_time cfg decoded = false) ->
  down r = None ->
  Forall (fun q => q = Finished (inr tt)) (inflight r) ->
  down (fold_left (step date_time JSON_parse cfg) hs r) = None
  /\ seen (fold_left (step date_time JSON_parse cfg) hs r)
     = seen r ++ (EvFinish <$> delivered hs)
  /\ env (fold_left (step date_time JSON_parse cfg) hs r) = env r.
Proof.
  revert r. induction hs as [|h hs IH]; intros r Hall Hup Hfl.
  - cbn. by rewrite app_nil_r.
  - cbn [fold_left].
    assert (forall msg, Delivered msg ∈ hs ->
              exists decoded, JSON_parse (m_body msg) = inr decoded
                /\ isIndexableMessage date_time cfg decoded = false) as Hall'.
    { intros msg Hm. apply Hall. by right. }
    destruct h as [msg|n].
    + destruct (Hall msg) as (decoded & Hd & Hrej); [by left |].
      assert (step date_time JSON_parse cfg r (Delivered msg)
              = {| seen := seen r ++ [EvFinish (m_id msg)]; env := env r;
                   inflight := inflight r ++ [Finished (inr tt)];
                   down := None |}) as ->.
      { unfold step, on_message, transformMessage.
        by rewrite Hup, Hd, Hrej. }
      destruct (IH {| seen := seen r ++ [EvFinish (m_id msg)]; env := env r;
                      inflight := inflight r ++ [Finished (inr tt)];
                      down := None |} Hall' eq_refl) as (Hup' & Hseen' & Henv').
      { cbn [inflight]. apply Forall_app. split; [done |]. by constructor. }
      split; [done |]. split; [| done].
      rewrite Hseen'. cbn [seen delivered omap fmap list_fmap].
      by rewrite <- app_assoc.
    + assert (step date_time JSON_parse cfg r (Heard n) = r) as ->.
      { unfold step. rewrite Hup.
        destruct (inflight r !! n) as [q|] eqn:Hq; [| done].
        pose proof (proj1 (Forall_lookup _ _) Hfl n q Hq) as ->.
        cbn [hear]. rewrite app_nil_r, list_insert_id by done.
        destruct r; cbn in *. by subst. }
      by apply IH.
Qed.

(** X16: a reader that is delivered only messages that decode and
    are rejected by [isIndexableMessage] does nothing but acknowledge
    them, in the order of delivery: no lookup, no request, no write,
    nothing printed, and the world is left as it was. *)
Theorem reader_drops_rejected (cfg : config) (w : world) (hs : list happening) :
  (forall msg, Delivered msg ∈ hs ->
     exists decoded, JSON_parse (m_body msg) = inr decoded
       /\ isIndexableMessage date_time cfg decoded = false) ->
  let r := startReader date_time JSON_parse cfg w hs in
  down r = None
  /\ seen r = EvFinish <$> delivered hs
  /\ env r = w.
Proof.
  intros Hall r. unfold r, startReader.
  by apply (steps_rejected cfg hs
              {| seen := []; env := w; inflight := []; down := None |}).
Qed.

End ChainInReader.

(** ** What steers the later stages *)

Lemma lookups_hydrateAndIndex cfg msg w :
  nullish msg = false ->
  lookups (trace w (hydrateAndIndex cfg msg))
  = [("attempt", prop msg "attempt_id");
     ("course", prop (m_attempt cfg msg w) "course_id");
     ("trainee", prop (m_attempt cfg msg w) "trainee_id");
     ("user", prop msg "user_id")].
Proof.
  intros Hn. unfold trace. rewrite run_hydrateAndIndex, m_trainee_user_id by done.
  pose proof (indexToElastic_events cfg (m_user cfg msg w) (w_user cfg msg w))
    as (_ & Hl & _). unfold trace in Hl.
  destruct (run _ (indexToElastic _ _)) as [[tr5 r5] w5]. cbn [fst] in *.
  autorewrite with events. rewrite Hl.
  unfold m_course. cbv zeta. by rewrite prop_merged_ne.
Qed.

(** X17: for a message that is an object, which identifiers are looked
    up depends on the message and on how the lookup of [attempt]
    settles, and on nothing else: what the service answers for the
    course, the trainee or the user, and what the store answers,
    changes none of the four lookups.  The user is always looked up by
    the message's own [user_id]. *)
Theorem lookups_follow_attempt_only (cfg : config) (o : gmap string value)
    (w w' : world) :
  outcome w (getDetails cfg "attempt" (prop (VObject o) "attempt_id"))
  = outcome w' (getDetails cfg "attempt" (prop (VObject o) "attempt_id")) ->
  lookups (trace w (hydrateAndIndex cfg (VObject o)))
  = lookups (trace w' (hydrateAndIndex cfg (VObject o)))
  /\ last (lookups (trace w (hydrateAndIndex cfg (VObject o))))
     = Some ("user", prop (VObject o) "user_id").
Proof.
  set (msg := VObject o). rewrite !outcome_getDetails. intros Hout.
  assert (settles cfg "attempt" (prop msg "attempt_id") w
          = settles cfg "attempt" (prop msg "attempt_id") w') as Hs by congruence.
  rewrite !lookups_hydrateAndIndex by done. unfold m_attempt. by rewrite Hs.
Qed.

(** ** When every record is found *)

Lemma dom_set_prop o k x o' :
  set_prop (VObject o) k x = VObject o' -> dom o' = {[k]} ∪ dom o.
Proof. cbn. intros [= <-]. by rewrite dom_insert_L. Qed.

Lemma not_enrichment_key k :
  k ∉ enrichment_keys ->
  "attempt" <> k /\ "course_id" <> k /\ "trainee_id" <> k
  /\ "course" <> k /\ "trainee" <> k /\ "user" <> k.
Proof.
  unfold enrichment_keys. cbn [list_to_set foldr].
  rewrite !not_elem_of_union, !not_elem_of_singleton.
  intros (? & ? & ? & ? & ? & ? & _). by repeat split.
Qed.

(** X18: when the message has an [attempt_id] and a [user_id], every
    request is answered with a record, and the record of the attempt
    has a [course_id] and a [trainee_id], four requests are sent and
    the document written is the message with the six properties
    [attempt], [course_id], [trainee_id], [course], [trainee] and
    [user] assigned, the fields it came with unchanged. *)
Theorem all_found_full_document (cfg : config) (o : gmap string value)
    (timestamp : string) (w : world) :
  o !! "timestamp" = Some (VString timestamp) ->
  truthy (prop (VObject o) "attempt_id") = true ->
  truthy (prop (VObject o) "user_id") = true ->
  (forall n q, exists r, callback (answer w n q) = Fulfilled r /\ truthy r = true) ->
  (forall q r, callback (answer w 0%nat q) = Fulfilled r ->
     truthy (prop r "course_id") = true /\ truthy (prop r "trainee_id") = true) ->
  let tr := trace w (hydrateAndIndex cfg (VObject o)) in
  length (requests tr) = 4%nat
  /\ exists c o',
       writes tr = [c] /\ es_body c = VObject o'
       /\ dom o' = dom o ∪ enrichment_keys
       /\ forall k, k ∉ enrichment_keys -> o' !! k = o !! k.
Proof.
  intros Hts Hat Hus Hw Hw0 tr.
  assert (prop (VObject o) "timestamp" = VString timestamp) as Hp.
  { simpl. by rewrite Hts. }
  set (msg := VObject o) in *.
  set (finds := fun w0 : world =>
         forall n q, exists r,
           callback (answer w0 n q) = Fulfilled r /\ truthy r = true).
  assert (forall id w0, truthy id = true -> finds w0 -> finds (world_after id w0))
    as Hafter.
  { intros id w0 Hid H n q. unfold world_after. rewrite Hid. apply (H (S n)). }
  assert (forall type id w0, truthy id = true -> finds w0 ->
            exists r, settles cfg type id w0 = Fulfilled r
              /\ truthy r = true
              /\ length (requests (sent cfg type id w0)) = 1%nat) as Hfound.
  { intros type id w0 Hid H. unfold settles, sent. rewrite Hid.
    destruct (H 0%nat (request_for cfg type id (uuid_v4 w0 0%nat)))
      as (r & -> & ?). by exists r. }
  (* attempt *)
  destruct (Hfound "attempt" _ w Hat Hw) as (r1 & Hs1 & Hr1 & Hn1).
  assert (truthy (prop r1 "course_id") = true
          /\ truthy (prop r1 "trainee_id") = true) as [Hc1 Ht1].
  { unfold settles in Hs1. rewrite Hat in Hs1. by apply Hw0 in Hs1. }
  assert (m_attempt cfg msg w = with_attempt msg r1) as Hm1.
  { unfold m_attempt. rewrite Hs1. cbn [merged]. by rewrite Hr1. }
  destruct (prop_with_attempt o r1) as (_ & Hpc & Hpt). fold msg in Hpc, Hpt.
  pose proof (Hafter _ w Hat Hw) as Hw1. fold (w_attempt msg w) in Hw1.
  (* course *)
  assert (truthy (prop (m_attempt cfg msg w) "course_id") = true) as Hcid.
  { by rewrite Hm1, Hpc. }
  destruct (Hfound "course" _ _ Hcid Hw1) as (r2 & Hs2 & Hr2 & Hn2).
  assert (m_course cfg msg w = set_prop (with_attempt msg r1) "course" r2) as Hm2.
  { unfold m_course. cbv zeta. rewrite Hs2. cbn [merged]. by rewrite Hr2, Hm1. }
  pose proof (Hafter _ _ Hcid Hw1) as Hw2. fold (w_course cfg msg w) in Hw2.
  (* trainee *)
  assert (truthy (prop (m_course cfg msg w) "trainee_id") = true) as Htid.
  { rewrite Hm2, prop_set_prop_ne by done. by rewrite Hpt. }
  destruct (Hfound "trainee" _ _ Htid Hw2) as (r3 & Hs3 & Hr3 & Hn3).
  assert (m_trainee cfg msg w
          = set_prop (set_prop (with_attempt msg r1) "course" r2) "trainee" r3)
    as Hm3.
  { unfold m_trainee. cbv zeta. rewrite Hs3. cbn [merged]. by rewrite Hr3, Hm2. }
  pose proof (Hafter _ _ Htid Hw2) as Hw3. fold (w_trainee cfg msg w) in Hw3.
  (* user *)
  assert (truthy (prop (m_trainee cfg msg w) "user_id") = true) as Huid.
  { by rewrite m_trainee_user_id. }
  destruct (Hfound "user" _ _ Huid Hw3) as (r4 & Hs4 & Hr4 & Hn4).
  assert (m_user cfg msg w
          = set_prop (set_prop (set_prop (with_attempt msg r1) "course" r2)
                        "trainee" r3) "user" r4) as Hm4.
  { unfold m_user. cbv zeta. rewrite Hs4. cbn [merged]. by rewrite Hr4, Hm3. }
  unfold tr. split.
  - rewrite requests_chain, !length_app, Hn1, Hn2, Hn3.
    rewrite m_trainee_user_id in Hn4. by rewrite Hn4.
  - rewrite (writes_chain _ _ _ _ Hp), Hm4.
    unfold msg, with_attempt. cbv zeta. cbn [set_prop prop].
    eexists _, _. split; [reflexivity |]. split; [reflexivity |]. split.
    + rewrite !dom_insert_L. unfold enrichment_keys. cbn [list_to_set foldr].
      apply set_eq. intros k.
      rewrite !elem_of_union, !elem_of_singleton, elem_of_empty. tauto.
    + intros k Hk.
      destruct (not_enrichment_key k Hk) as (? & ? & ? & ? & ? & ?).
      by rewrite !lookup_insert_ne.
Qed.

(** ** The further facts at the sample inputs *)

Lemma chain_ids_fresh_witness :
  let msg := VObject sample_event in
  let tr := trace sample_world (hydrateAndIndex defaultConfig msg) in
  prop msg "timestamp" = VString "2018-01-16T14:09:51.655185082-07:00"
  /\ drawn_ids tr = ["uuid-0"; "uuid-1"; "uuid-2"; "uuid-3"; "uuid-4"].
Proof.
  intros msg tr. split; [reflexivity |].
  destruct (chain_ids_fresh defaultConfig msg
              "2018-01-16T14:09:51.655185082-07:00" sample_world eq_refl)
    as [Hids _].
  fold tr in Hids. rewrite Hids. by vm_compute.
Defined.

Lemma write_comes_last_witness :
  let msg := VObject sample_event in
  prop msg "timestamp" = VString "2018-01-16T14:09:51.655185082-07:00"
  /\ exists before c after,
       trace sample_world (hydrateAndIndex defaultConfig msg)
       = before ++ EvCreate c :: after
       /\ (lookups before).*1 = ["attempt"; "course"; "trainee"; "user"]
       /\ writes before = []
       /\ lookups after = [] /\ requests after = [] /\ writes after = [].
Proof.
  intros msg. split; [reflexivity |].
  exact (write_comes_last defaultConfig msg
           "2018-01-16T14:09:51.655185082-07:00" sample_world eq_refl).
Defined.

Lemma no_failure_no_log_witness :
  let msg := VObject sample_event in
  prop msg "timestamp" = VString "2018-01-16T14:09:51.655185082-07:00"
  /\ always_found empty_world
  /\ store_accepts empty_world
  /\ logs (trace empty_world (hydrateAndIndex defaultConfig msg)) = [].
Proof.
  intros msg. split; [reflexivity |].
  assert (always_found empty_world) as Hw.
  { intros n o. by exists VNull. }
  assert (store_accepts empty_world) as Hst.
  { by intros n c. }
  split; [exact Hw |]. split; [exact Hst |].
  exact (no_failure_no_log defaultConfig msg
           "2018-01-16T14:09:51.655185082-07:00" empty_world eq_refl Hw Hst).
Defined.

Lemma service_down_writes_message_witness :
  let msg := VObject sample_event in
  let tr := trace silent_world (hydrateAndIndex defaultConfig msg) in
  prop msg "timestamp" = VString "2018-01-16T14:09:51.655185082-07:00"
  /\ always_refused silent_world
  /\ store_accepts silent_world
  /\ (exists c, writes tr = [c] /\ es_body c = msg)
  /\ length (logs tr) = length (requests tr).
Proof.
  intros msg tr. split; [reflexivity |].
  assert (always_refused silent_world) as Hw.
  { intros n o. by exists (cb_error timed_out). }
  assert (store_accepts silent_world) as Hst.
  { by intros n c. }
  split; [exact Hw |]. split; [exact Hst |].
  exact (service_down_writes_message defaultConfig msg
           "2018-01-16T14:09:51.655185082-07:00" silent_world eq_refl Hw Hst).
Defined.

Lemma chain_keeps_message_witness :
  sample_event !! "timestamp"
  = Some (VString "2018-01-16T14:09:51.655185082-07:00")
  /\ exists c o',
       writes (trace sample_world
                 (hydrateAndIndex defaultConfig (VObject sample_event))) = [c]
       /\ es_body c = VObject o'
       /\ dom sample_event ⊆ dom o'
       /\ dom o' ⊆ dom sample_event ∪ enrichment_keys
       /\ forall k, k ∉ enrichment_keys -> o' !! k = sample_event !! k.
Proof.
  split; [reflexivity |].
  exact (chain_keeps_message defaultConfig sample_event
           "2018-01-16T14:09:51.655185082-07:00" sample_world eq_refl).
Defined.

Lemma chain_needs_timestamp_witness :
  let msg := VObject (<["timestamp" := number_of_Z 1516136991]> sample_event) in
  let tr := trace sample_world (hydrateAndIndex defaultConfig msg) in
  (forall timestamp,
     <["timestamp" := number_of_Z 1516136991]> sample_event !! "timestamp"
     <> Some (VString timestamp))
  /\ (lookups tr).*1 = ["attempt"; "course"; "trainee"; "user"]
  /\ writes tr = []
  /\ exists message,
       outcome sample_world (hydrateAndIndex defaultConfig msg)
       = inl (TypeError message).
Proof.
  intros msg tr.
  assert (forall timestamp,
            <["timestamp" := number_of_Z 1516136991]> sample_event !! "timestamp"
            <> Some (VString timestamp)) as Hts.
  { intros timestamp. discriminate. }
  split; [exact Hts |].
  exact (chain_needs_timestamp defaultConfig
           (<["timestamp" := number_of_Z 1516136991]> sample_event)
           sample_world Hts).
Defined.

Lemma index_of_any_timestamp_witness :
  let msg := VObject (<["timestamp" := VString "2018-01-16 14:09:51Z"]> sample_event) in
  prop msg "timestamp" = VString "2018-01-16 14:09:51Z"
  /\ exists c,
       writes (trace sample_world (indexToElastic defaultConfig msg)) = [c]
       /\ es_index c = "events-2018-01-16 14:09:51Z".
Proof.
  intros msg. split; [reflexivity |].
  destruct (index_of_any_timestamp defaultConfig msg "2018-01-16 14:09:51Z"
              sample_world eq_refl)
    as (c & date & rest & Hw & Hidx & _ & _ & _ & Hwhole).
  exists c. split; [exact Hw |]. rewrite Hidx, Hwhole; [reflexivity |].
  intros ch Hin. cbn in Hin.
  repeat (apply elem_of_cons in Hin as [-> | Hin]; [discriminate |]).
  by apply elem_of_nil in Hin.
Defined.

Lemma getDetails_null_or_truthy_witness :
  outcome sample_world
    (getDetails defaultConfig "attempt" (prop (VObject sample_event) "attempt_id"))
  = inr (Fulfilled sample_attempt)
  /\ (sample_attempt = VNull \/ truthy sample_attempt = true).
Proof.
  assert (outcome sample_world
            (getDetails defaultConfig "attempt"
               (prop (VObject sample_event) "attempt_id"))
          = inr (Fulfilled sample_attempt)) as Hout by reflexivity.
  split; [exact Hout |].
  exact (getDetails_null_or_truthy defaultConfig "attempt"
           (prop (VObject sample_event) "attempt_id") sample_world
           sample_attempt Hout).
Defined.

Lemma accepted_keys_exact_witness :
  isIndexableMessage sample_date_time defaultConfig (VObject sample_event) = true
  /\ dom sample_event = required_keys
  /\ forall k, k ∈ enrichment_keys -> sample_event !! k = None.
Proof.
  assert (isIndexableMessage sample_date_time defaultConfig (VObject sample_event)
          = true) as Hv by by vm_compute.
  split; [exact Hv |].
  exact (accepted_keys_exact sample_date_time defaultConfig sample_event
           eq_refl eq_refl Hv).
Defined.

Lemma keycount_below_schema_rejects_all_witness :
  let cfg := {| server := server defaultConfig;
                http_timeout := http_timeout defaultConfig;
                nsq_topic := nsq_topic defaultConfig;
                nsq_channel := nsq_channel defaultConfig;
                msg_keycount := 6;
                msg_schema := messageSchema;
                brainspark_method := brainspark_method defaultConfig;
                elastic_type := elastic_type defaultConfig;
                elastic_indexprefix := elastic_indexprefix defaultConfig |} in
  (msg_keycount cfg < 7)%Z
  /\ isIndexableMessage sample_date_time cfg (VObject sample_event) = false.
Proof.
  intros cfg. split; [reflexivity |].
  apply (keycount_below_schema_rejects_all sample_date_time cfg
           (VObject sample_event) eq_refl).
  reflexivity.
Defined.

Lemma extra_key_passes_schema_witness :
  let cfg := {| server := server defaultConfig;
                http_timeout := http_timeout defaultConfig;
                nsq_topic := nsq_topic defaultConfig;
                nsq_channel := nsq_channel defaultConfig;
                msg_keycount := 8;
                msg_schema := messageSchema;
                brainspark_method := brainspark_method defaultConfig;
                elastic_type := elastic_type defaultConfig;
                elastic_indexprefix := elastic_indexprefix defaultConfig |} in
  isIndexableMessage sample_date_time cfg (VObject sample_event) = true
  /\ isIndexableMessage sample_date_time cfg
       (VObject (<["bad_key" := VString "Bad"]> sample_event)) = true.
Proof.
  intros cfg.
  assert (isIndexableMessage sample_date_time cfg (VObject sample_event) = true)
    as Hv by by vm_compute.
  split; [exact Hv |].
  apply (extra_key_passes_schema sample_date_time cfg sample_event "bad_key"
           (VString "Bad") eq_refl Hv eq_refl).
  by vm_compute.
Defined.

Lemma reader_runs_chain_witness :
  let m1 := {| m_id := "m1"; m_body := sample_payload |} in
  let p := transformMessage sample_date_time defaultConfig (VObject sample_event) in
  let r := startReader sample_date_time sample_JSON_parse defaultConfig sample_world
             (Delivered m1 :: replicate 5 (Heard 0%nat)) in
  sample_JSON_parse (m_body m1) = inr (VObject sample_event)
  /\ down r = None
  /\ unacked (seen r) = trace sample_world p
  /\ inflight r = [Finished (outcome sample_world p)]
  /\ env r = (run sample_world p).2.
Proof.
  intros m1 p r. split; [reflexivity |].
  apply (reader_runs_chain sample_date_time sample_JSON_parse defaultConfig
           sample_world m1 (VObject sample_event) 5 eq_refl).
  lia.
Defined.

Lemma reader_drops_rejected_witness :
  let m1 := {| m_id := "m1"; m_body := "[1,2]" |} in
  let m2 := {| m_id := "m2"; m_body := "[1,2]" |} in
  let hs := [Delivered m1; Heard 0%nat; Delivered m2] in
  let r := startReader sample_date_time sample_JSON_parse defaultConfig
             sample_world hs in
  down r = None
  /\ seen r = [EvFinish "m1"; EvFinish "m2"]
  /\ env r = sample_world.
Proof.
  intros m1 m2 hs r.
  apply (reader_drops_rejected sample_date_time sample_JSON_parse defaultConfig
           sample_world hs).
  intros msg Hin. unfold hs in Hin.
  repeat (apply elem_of_cons in Hin as [Hin | Hin];
          [first [discriminate Hin
                 | injection Hin as ->;
                   exists (VArray [number_of_Z 1; number_of_Z 2]); by split] |]).
  by apply elem_of_nil in Hin.
Defined.

Lemma lookups_follow_attempt_only_witness :
  let msg := VObject sample_event in
  outcome sample_world (getDetails defaultConfig "attempt" (prop msg "attempt_id"))
  = outcome generous_world (getDetails defaultConfig "attempt" (prop msg "attempt_id"))
  /\ lookups (trace sample_world (hydrateAndIndex defaultConfig msg))
     = lookups (trace generous_world (hydrateAndIndex defaultConfig msg))
  /\ last (lookups (trace sample_world (hydrateAndIndex defaultConfig msg)))
     = Some ("user", prop msg "user_id").
Proof.
  intros msg. split; [reflexivity |].
  exact (lookups_follow_attempt_only defaultConfig sample_event sample_world
           generous_world eq_refl).
Defined.

Lemma all_found_full_document_witness :
  let tr := trace generous_world (hydrateAndIndex defaultConfig (VObject sample_event)) in
  length (requests tr) = 4%nat
  /\ exists c o',
       writes tr = [c] /\ es_body c = VObject o'
       /\ dom o' = dom sample_event ∪ enrichment_keys
       /\ forall k, k ∉ enrichment_keys -> o' !! k = sample_event !! k.
Proof.
  apply (all_found_full_document defaultConfig sample_event
           "2018-01-16T14:09:51.655185082-07:00" generous_world
           eq_refl eq_refl eq_refl).
  - intros [|n] q; [by exists sample_attempt | by exists sample_user].
  - intros q r [= <-]. by split.
Defined.
